(** * The frame hand-off of gstreamer.py: mailbox, worker loop, shutdown

    A shallow embedding of [src/gstreamer/gstreamer.py].  The class
    [GstPipeline] shares one object between three threads: the appsink
    streaming thread ([on_new_sample]), the inference worker
    ([inference_loop]) and the control thread ([run], which also dispatches
    [on_bus_message] from the Gtk main loop).  The methods are embedded as
    functions over the fields of [self]; the threads are embedded as program
    counters over those functions, stepped one at a time by a scheduler. *)

From Stdlib Require Import ZArith Lia.
From Stdlib Require SpecFloat.
From stdpp Require Import base option list strings.

(** ** Definitions *)

(** *** What the program sees of GStreamer *)

Module Gst.

(** A [Gst.Buffer] is an opaque handle; a live handle is truthy in Python. *)
Definition Buffer : Type := nat.

(** [sink.emit('pull-sample')]: the caps carry width and height, and
    [get_buffer()] gives the frame. *)
Record Sample : Type := mkSample {
  caps_width : Z;
  caps_height : Z;
  get_buffer : Buffer }.

(** The [glbox] filter and its four properties. *)
Record GlBox : Type := mkGlBox {
  gl_x : Z; gl_y : Z; gl_width : Z; gl_height : Z }.

(** The bin named ['glbox'] and its child named ['filter'], if any. *)
Record GlFilterBin : Type := mkGlFilterBin {
  child_filter : option GlBox }.

(** The [videobox] element named ['box'] and its four insets. *)
Record VideoBox : Type := mkVideoBox {
  vb_left : Z; vb_top : Z; vb_right : Z; vb_bottom : Z }.

(** [rsvgoverlay name=overlay]: the last value written to ['data']. *)
Record RsvgOverlay : Type := mkRsvgOverlay {
  ov_data : option string }.

(** [glsvgoverlaysink name=overlaysink]: the last value written to ['svg']. *)
Record GlSvgOverlaySink : Type := mkGlSvgOverlaySink {
  os_svg : option string }.

Inductive State : Type := NULL | READY | PAUSED | PLAYING.

Inductive FlowReturn : Type := OK.

Inductive MessageType : Type := EOS | WARNING | ERROR | OTHER.

(** A bus message: its type and what [parse_warning] / [parse_error]
    return. *)
Record Message : Type := mkMessage {
  msg_type : MessageType;
  msg_err : string;
  msg_debug : string }.

(** The elements [get_box] looks up by name at every uncached call, and
    the state the pipeline was last commanded into. *)
Record Pipeline : Type := mkPipeline {
  el_glbox : option GlFilterBin;
  el_box : option VideoBox;
  state : State }.

Definition set_state (st : State) (p : Pipeline) : Pipeline :=
  {| el_glbox := el_glbox p; el_box := el_box p; state := st |}.

End Gst.

(** *** Python values and exceptions *)

Module Py.

(** The two [assert] statements of [get_box], by source line. *)
Inductive AssertSite : Type :=
| glbox_or_box    (* line 103: assert glbox or box *)
| sink_size_known (* line 104: assert self.sink_size *).

Inductive Exn : Type :=
| AssertionError (site : AssertSite)
| AttributeError  (* attribute access on None *)
| TypeError       (* subscript of None *)
| CallbackError   (* raised by the user function *).

(** [bool(v)] for [None] or an object. *)
Definition truthy {A} (v : option A) : bool :=
  match v with Some _ => true | None => false end.

(** [bool(svg)] for what the callback returns: [None] or a [str]; the
    empty string is falsy. *)
Definition truthy_str (v : option string) : bool :=
  match v with
  | Some (String _ _) => true
  | Some EmptyString | None => false
  end.

End Py.

Import Gst Py.

Definition Size : Type := Z * Z.
Definition Box : Type := Z * Z * Z * Z.

(** What the callback does when called: return [None] or a string, or
    raise. *)
Inductive UserResult : Type :=
| Returns (svg : option string)
| Raises.

(** Thread identities, for the lock and the log. *)
Inductive Tid : Type := Control | Worker | Producer.

(** What an execution does that can be observed from outside [self]. *)
Inductive Event : Type :=
| EvSetRunning (b : bool)             (* self.running = b *)
| EvThreadStart                       (* worker.start() *)
| EvSetState (st : State)             (* pipeline.set_state(st) *)
| EvAcquire (t : Tid)                 (* with self.condition: enter *)
| EvRelease (t : Tid)                 (* with self.condition: leave *)
| EvWait                              (* self.condition.wait() *)
| EvNotifyAll (t : Tid)               (* self.condition.notify_all() *)
| EvDeposit (b : Buffer)              (* self.gstbuffer = sample.get_buffer() *)
| EvTake (b : Buffer)                 (* gstbuffer = self.gstbuffer *)
| EvBreak                             (* break out of the worker loop *)
| EvSetProperty (elem prop value : string)
| EvStderr (line : string)
| EvMainQuit                          (* Gtk.main_quit() *)
| EvJoin                              (* worker.join() is called *)
| EvWorkerRaise (e : Exn)
| EvRunReturn.

#[global] Instance Tid_eq_dec : EqDecision Tid.
Proof. solve_decision. Defined.
#[global] Instance State_eq_dec : EqDecision State.
Proof. solve_decision. Defined.
#[global] Instance AssertSite_eq_dec : EqDecision AssertSite.
Proof. solve_decision. Defined.
#[global] Instance Exn_eq_dec : EqDecision Exn.
Proof. solve_decision. Defined.
#[global] Instance Event_eq_dec : EqDecision Event.
Proof. solve_decision. Defined.

(** *** The object: fields of [GstPipeline] (lines 29-40) *)

Record Self : Type := mkSelf {
  user_function : Buffer -> Size -> Box -> UserResult;
  running : bool;
  gstbuffer : option Buffer;
  sink_size : option Size;
  src_size : Size;
  box : option Box;
  pipeline : Pipeline;
  overlay : option RsvgOverlay;
  overlaysink : option GlSvgOverlaySink }.

Definition set_running (v : bool) (s : Self) : Self :=
  mkSelf (user_function s) v (gstbuffer s) (sink_size s) (src_size s)
         (box s) (pipeline s) (overlay s) (overlaysink s).

Definition set_gstbuffer (v : option Buffer) (s : Self) : Self :=
  mkSelf (user_function s) (running s) v (sink_size s) (src_size s)
         (box s) (pipeline s) (overlay s) (overlaysink s).

Definition set_sink_size (v : option Size) (s : Self) : Self :=
  mkSelf (user_function s) (running s) (gstbuffer s) v (src_size s)
         (box s) (pipeline s) (overlay s) (overlaysink s).

Definition set_box (v : option Box) (s : Self) : Self :=
  mkSelf (user_function s) (running s) (gstbuffer s) (sink_size s) (src_size s)
         v (pipeline s) (overlay s) (overlaysink s).

Definition set_pipeline (v : Pipeline) (s : Self) : Self :=
  mkSelf (user_function s) (running s) (gstbuffer s) (sink_size s) (src_size s)
         (box s) v (overlay s) (overlaysink s).

Definition set_overlay (v : option RsvgOverlay) (s : Self) : Self :=
  mkSelf (user_function s) (running s) (gstbuffer s) (sink_size s) (src_size s)
         (box s) (pipeline s) v (overlaysink s).

Definition set_overlaysink (v : option GlSvgOverlaySink) (s : Self) : Self :=
  mkSelf (user_function s) (running s) (gstbuffer s) (sink_size s) (src_size s)
         (box s) (pipeline s) (overlay s) v.

(** [GstPipeline.__init__] (lines 29-40): the parsed pipeline and the two
    overlay elements found in it are given; the rest starts empty. *)
Definition init_self (f : Buffer -> Size -> Box -> UserResult) (src : Size)
    (p : Pipeline) (ov : option RsvgOverlay) (os : option GlSvgOverlaySink)
    : Self :=
  {| user_function := f;
     running := false;
     gstbuffer := None;
     sink_size := None;
     src_size := src;
     box := None;
     pipeline := p;
     overlay := ov;
     overlaysink := os |}.

(** *** Methods that run on one thread: state, exceptions, output *)

Inductive Res (A : Type) : Type :=
| Ok (a : A)
| Raise (e : Exn).
Arguments Ok {A} a.
Arguments Raise {A} e.

(** A method body: from [self] to a result, the updated [self] and the calls
    it made on collaborators, oldest first. *)
Definition M (A : Type) : Type := Self -> Res A * Self * list Event.

#[global] Instance M_ret : MRet M := fun A a s => (Ok a, s, []).

#[global] Instance M_bind : MBind M := fun A B k m s =>
  match m s with
  | (Ok a, s1, out1) =>
      match k a s1 with (r, s2, out2) => (r, s2, out1 ++ out2) end
  | (Raise e, s1, out1) => (Raise e, s1, out1)
  end.

Definition raise {A} (e : Exn) : M A := fun s => (Raise e, s, []).
Definition get_self : M Self := fun s => (Ok s, s, []).
Definition modify (f : Self -> Self) : M unit := fun s => (Ok tt, f s, []).
Definition emit (e : Event) : M unit := fun s => (Ok tt, s, [e]).

(** [assert c] *)
Definition assert_ (c : bool) (site : AssertSite) : M unit :=
  if c then mret tt else raise (AssertionError site).

(** [o.attr] where [o] may be [None] *)
Definition deref {A} (o : option A) : M A :=
  match o with Some a => mret a | None => raise AttributeError end.

(** [o[i]] where [o] may be [None] *)
Definition subscript {A} (o : option A) : M A :=
  match o with Some a => mret a | None => raise TypeError end.

(** Lines 99-101 of [get_box]: the element named ['glbox'] and, when there
    is one, its child named ['filter']. *)
Definition lookup_glbox (p : Pipeline) : option GlBox :=
  match el_glbox p with
  | Some bin => child_filter bin
  | None => None
  end.

(** [GstPipeline.get_box] (lines 97-112). *)
Definition get_box : M Box :=
  self ← get_self;
  (if negb (truthy (box self)) then
     let glbox := lookup_glbox (pipeline self) in
     let box_el := el_box (pipeline self) in
     assert_ (truthy glbox || truthy box_el) glbox_or_box;;
     assert_ (truthy (sink_size self)) sink_size_known;;
     (if truthy glbox then
        g ← deref glbox;
        modify (set_box (Some (gl_x g, gl_y g, gl_width g, gl_height g)))
      else
        b ← deref box_el;
        sz ← subscript (sink_size self);
        modify (set_box (Some (- vb_left b, - vb_top b,
                               sz.1 + vb_left b + vb_right b,
                               sz.2 + vb_top b + vb_bottom b))))%Z
   else mret tt);;
  self' ← get_self;
  deref (box self').

(** The call of the user function (line 130). *)
Definition call_user (gstbuffer : Buffer) (box : Box) : M (option string) :=
  self ← get_self;
  match user_function self gstbuffer (src_size self) box with
  | Returns svg => mret svg
  | Raises => raise CallbackError
  end.

(** [self.overlay.set_property('data', svg)] (line 133). *)
Definition overlay_set_data (svg : string) : M unit :=
  modify (set_overlay (Some (mkRsvgOverlay (Some svg))));;
  emit (EvSetProperty "overlay" "data" svg).

(** [self.overlaysink.set_property('svg', svg)] (line 135). *)
Definition overlaysink_set_svg (svg : string) : M unit :=
  modify (set_overlaysink (Some (mkGlSvgOverlaySink (Some svg))));;
  emit (EvSetProperty "overlaysink" "svg" svg).

(** Lines 131-135: publish what the callback returned. *)
Definition publish (svg : option string) : M unit :=
  if truthy_str svg then
    self ← get_self;
    text ← deref svg;
    (if truthy (overlay self) then overlay_set_data text else mret tt);;
    self' ← get_self;
    (if truthy (overlaysink self') then overlaysink_set_svg text else mret tt)
  else mret tt.

(** Lines 129-135: what the worker does with a frame it took. *)
Definition process_frame (gstbuffer : Buffer) : M unit :=
  region ← get_box;
  svg ← call_user gstbuffer region;
  publish svg.

(** The three parts of what a method body gives. *)
Definition res_of {A} (x : Res A * Self * list Event) : Res A := x.1.1.
Definition state_of {A} (x : Res A * Self * list Event) : Self := x.1.2.
Definition out_of {A} (x : Res A * Self * list Event) : list Event := x.2.

(** *** The mailbox: the field [gstbuffer] under [self.condition] *)

(** The frames the slot holds. *)
Definition held_frames (s : Self) : list Buffer :=
  match gstbuffer s with
  | Some b => [b]
  | None => []
  end.

(** Lines 89-91 of [on_new_sample]: the first sample fixes [sink_size]. *)
Definition observe_caps (sample : Sample) (s : Self) : Self :=
  if negb (truthy (sink_size s))
  then set_sink_size (Some (caps_width sample, caps_height sample)) s
  else s.

(** Line 93: [self.gstbuffer = sample.get_buffer()]. *)
Definition deposit (b : Buffer) (s : Self) : Self :=
  set_gstbuffer (Some b) s.

(** [GstPipeline.on_new_sample] (lines 87-95), run without interruption. *)
Definition on_new_sample (sample : Sample) : M FlowReturn :=
  modify (observe_caps sample);;
  emit (EvAcquire Producer);;
  modify (deposit (get_buffer sample));;
  emit (EvDeposit (get_buffer sample));;
  emit (EvNotifyAll Producer);;
  emit (EvRelease Producer);;
  mret OK.

(** What the worker finds when it holds the lock at line 117. *)
Inductive Taken : Type :=
| Blocked              (* line 118: self.condition.wait() *)
| NoMoreWork           (* line 120: break *)
| Frame (b : Buffer)   (* lines 121-122 *).

(** Lines 117-122 of [inference_loop], from the loop test to the end of the
    [with] block, at one holding of the lock. *)
Definition take_or_wait (s : Self) : Taken * Self :=
  match gstbuffer s with
  | None =>
      if running s then (Blocked, s)            (* not gstbuffer and running *)
      else (NoMoreWork, s)                      (* if not self.running: break *)
  | Some b =>
      if negb (running s) then (NoMoreWork, s)  (* if not self.running: break *)
      else (Frame b, set_gstbuffer None s)      (* take, self.gstbuffer = None *)
  end.

(** *** The status dispatcher *)

Definition newline : string := String (Ascii.ascii_of_nat 10) EmptyString.

(** [GstPipeline.on_bus_message] (lines 74-85): what it writes and whether it
    calls [Gtk.main_quit]; it always returns [True]. *)
Definition on_bus_message (m : Message) : list Event :=
  match msg_type m with
  | EOS => [EvMainQuit]
  | WARNING =>
      [EvStderr ("Warning: " +:+ msg_err m +:+ ": " +:+ msg_debug m +:+ newline)]
  | ERROR =>
      [EvStderr ("Error: " +:+ msg_err m +:+ ": " +:+ msg_debug m +:+ newline);
       EvMainQuit]
  | OTHER => []
  end.

Definition calls_main_quit (out : list Event) : bool :=
  bool_decide (EvMainQuit ∈ out).

(** *** The three threads *)

(** Where the control thread is in [run] (lines 52-72). *)
Inductive CtlPc : Type :=
| C_Start     (* line 54: self.running = True *)
| C_Spawn     (* lines 55-56: worker.start() *)
| C_Play      (* line 59: set_state(PLAYING) *)
| C_Main      (* line 61: inside Gtk.main() *)
| C_Stop      (* line 66: set_state(NULL) *)
| C_Drain     (* lines 67-68: pending main-context iterations *)
| C_Acquire   (* line 69: with self.condition *)
| C_Clear     (* line 70: self.running = False *)
| C_Notify    (* line 71: notify_all() *)
| C_Release   (* end of the with block *)
| C_Join      (* line 72: worker.join() called *)
| C_Joining   (* line 72: blocked in join *)
| C_Returned  (* run has returned *).

(** Where the worker is in [inference_loop] (lines 114-135). *)
Inductive WrkPc : Type :=
| W_Unstarted
| W_Top                (* line 116: with self.condition *)
| W_Locked             (* line 117: holding the lock *)
| W_Wait               (* line 118: in wait(), not notified *)
| W_Woken              (* line 118: notified, re-acquiring *)
| W_Have (b : Buffer)  (* line 129: frame in hand, lock released *)
| W_Done               (* loop left by break *)
| W_Crashed (e : Exn)  (* loop left by an exception *).

(** Where the streaming thread is in [on_new_sample] (lines 87-95). *)
Inductive PrdPc : Type :=
| P_Idle
| P_Pending (sample : Sample)  (* line 92: with self.condition *)
| P_Locked (sample : Sample)   (* line 93 *)
| P_Notify (sample : Sample)   (* line 94 *)
| P_Release (sample : Sample)  (* end of the with block, return OK *).

Record Sys : Type := mkSys {
  self : Self;
  lock : option Tid;      (* owner of self.condition's lock *)
  cpc : CtlPc;
  wpc : WrkPc;
  ppc : PrdPc;
  trace : list Event      (* oldest first *) }.

(** The scheduler's choices: let one thread take its next step, or let the
    environment act. A choice that is not enabled leaves the system as it
    is (the thread stays blocked). *)
Inductive Action : Type :=
| ActControl
| ActWorker
| ActProducer
| ActSample (sample : Sample)    (* appsink signals new-sample *)
| ActBus (m : Message)           (* the main context dispatches a message *)
| ActQuit                        (* delete-event: Gtk.main_quit (line 175) *)
| ActInterrupt                   (* Gtk.main() raises; except: pass *)
| ActDrift (g : option GlFilterBin) (b : option VideoBox)
                                 (* element properties change *).

(** [notify_all()]: a waiting worker is woken. *)
Definition wake (w : WrkPc) : WrkPc :=
  match w with W_Wait => W_Woken | _ => w end.

Definition finished (w : WrkPc) : bool :=
  match w with W_Done | W_Crashed _ => true | _ => false end.

Definition step_control (s : Sys) : Sys :=
  match cpc s with
  | C_Start =>
      mkSys (set_running true (self s)) (lock s) C_Spawn (wpc s) (ppc s)
            (trace s ++ [EvSetRunning true])
  | C_Spawn =>
      mkSys (self s) (lock s) C_Play
            (match wpc s with W_Unstarted => W_Top | w => w end) (ppc s)
            (trace s ++ [EvThreadStart])
  | C_Play =>
      mkSys (set_pipeline (set_state PLAYING (pipeline (self s))) (self s))
            (lock s) C_Main (wpc s) (ppc s) (trace s ++ [EvSetState PLAYING])
  | C_Main => s
  | C_Stop =>
      mkSys (set_pipeline (set_state NULL (pipeline (self s))) (self s))
            (lock s) C_Drain (wpc s) (ppc s) (trace s ++ [EvSetState NULL])
  | C_Drain =>
      mkSys (self s) (lock s) C_Acquire (wpc s) (ppc s) (trace s)
  | C_Acquire =>
      match lock s with
      | None => mkSys (self s) (Some Control) C_Clear (wpc s) (ppc s)
                      (trace s ++ [EvAcquire Control])
      | Some _ => s
      end
  | C_Clear =>
      mkSys (set_running false (self s)) (lock s) C_Notify (wpc s) (ppc s)
            (trace s ++ [EvSetRunning false])
  | C_Notify =>
      mkSys (self s) (lock s) C_Release (wake (wpc s)) (ppc s)
            (trace s ++ [EvNotifyAll Control])
  | C_Release =>
      mkSys (self s) None C_Join (wpc s) (ppc s)
            (trace s ++ [EvRelease Control])
  | C_Join =>
      mkSys (self s) (lock s) C_Joining (wpc s) (ppc s) (trace s ++ [EvJoin])
  | C_Joining =>
      if finished (wpc s)
      then mkSys (self s) (lock s) C_Returned (wpc s) (ppc s)
                 (trace s ++ [EvRunReturn])
      else s
  | C_Returned => s
  end.

Definition step_worker (s : Sys) : Sys :=
  match wpc s with
  | W_Top | W_Woken =>
      match lock s with
      | None => mkSys (self s) (Some Worker) (cpc s) W_Locked (ppc s)
                      (trace s ++ [EvAcquire Worker])
      | Some _ => s
      end
  | W_Locked =>
      match take_or_wait (self s) with
      | (Blocked, self') =>
          mkSys self' None (cpc s) W_Wait (ppc s) (trace s ++ [EvWait])
      | (NoMoreWork, self') =>
          mkSys self' None (cpc s) W_Done (ppc s)
                (trace s ++ [EvBreak; EvRelease Worker])
      | (Frame b, self') =>
          mkSys self' None (cpc s) (W_Have b) (ppc s)
                (trace s ++ [EvTake b; EvRelease Worker])
      end
  | W_Have b =>
      match process_frame b (self s) with
      | (Ok _, self', out) =>
          mkSys self' (lock s) (cpc s) W_Top (ppc s) (trace s ++ out)
      | (Raise e, self', out) =>
          mkSys self' (lock s) (cpc s) (W_Crashed e) (ppc s)
                (trace s ++ out ++ [EvWorkerRaise e])
      end
  | W_Unstarted | W_Wait | W_Done | W_Crashed _ => s
  end.

Definition step_producer (s : Sys) : Sys :=
  match ppc s with
  | P_Idle => s
  | P_Pending sample =>
      match lock s with
      | None => mkSys (self s) (Some Producer) (cpc s) (wpc s) (P_Locked sample)
                      (trace s ++ [EvAcquire Producer])
      | Some _ => s
      end
  | P_Locked sample =>
      mkSys (deposit (get_buffer sample) (self s)) (lock s) (cpc s) (wpc s)
            (P_Notify sample) (trace s ++ [EvDeposit (get_buffer sample)])
  | P_Notify sample =>
      mkSys (self s) (lock s) (cpc s) (wake (wpc s)) (P_Release sample)
            (trace s ++ [EvNotifyAll Producer])
  | P_Release sample =>
      mkSys (self s) None (cpc s) (wpc s) P_Idle
            (trace s ++ [EvRelease Producer])
  end.

(** A bus message reaches [on_bus_message] while the control thread is in
    [Gtk.main()] or draining the main context; [Gtk.main_quit] ends the main
    loop only when one is running. *)
Definition step_bus (m : Message) (s : Sys) : Sys :=
  let out := on_bus_message m in
  match cpc s with
  | C_Main =>
      mkSys (self s) (lock s) (if calls_main_quit out then C_Stop else C_Main)
            (wpc s) (ppc s) (trace s ++ out)
  | C_Drain =>
      mkSys (self s) (lock s) C_Drain (wpc s) (ppc s) (trace s ++ out)
  | _ => s
  end.

Definition step (a : Action) (s : Sys) : Sys :=
  match a with
  | ActControl => step_control s
  | ActWorker => step_worker s
  | ActProducer => step_producer s
  | ActSample sample =>
      match ppc s with
      | P_Idle => mkSys (observe_caps sample (self s)) (lock s) (cpc s) (wpc s)
                        (P_Pending sample) (trace s)
      | _ => s
      end
  | ActBus m => step_bus m s
  | ActQuit =>
      match cpc s with
      | C_Main => mkSys (self s) (lock s) C_Stop (wpc s) (ppc s)
                        (trace s ++ [EvMainQuit])
      | _ => s
      end
  | ActInterrupt =>
      match cpc s with
      | C_Main => mkSys (self s) (lock s) C_Stop (wpc s) (ppc s) (trace s)
      | _ => s
      end
  | ActDrift g b =>
      mkSys (set_pipeline (mkPipeline g b (state (pipeline (self s)))) (self s))
            (lock s) (cpc s) (wpc s) (ppc s) (trace s)
  end.

Fixpoint exec (acts : list Action) (s : Sys) : Sys :=
  match acts with
  | [] => s
  | a :: rest => exec rest (step a s)
  end.

(** A fresh object on which [run()] is about to be called. *)
Definition init_sys (s0 : Self) : Sys :=
  mkSys s0 None C_Start W_Unstarted P_Idle [].

Definition with_self (v : Self) (s : Sys) : Sys :=
  mkSys v (lock s) (cpc s) (wpc s) (ppc s) (trace s).

(** *** Reading a trace *)

Definition deposits (tr : list Event) : list Buffer :=
  omap (fun e => match e with EvDeposit b => Some b | _ => None end) tr.

Definition deliveries (tr : list Event) : list Buffer :=
  omap (fun e => match e with EvTake b => Some b | _ => None end) tr.


(** *** The outcome of the process *)

(** How the call of [run_pipeline] ends, once it has ended. *)
Inductive Outcome : Type :=
| Returned    (* falls off the end, returning None *)
| Uncaught    (* an exception leaves the main thread *).

(** How [run()] has ended in [s], if it has.  No statement of [run] lets
    an exception out: [Gtk.main()] is inside [try/except: pass] (lines
    60-63), and what the worker raises ends the worker thread only.  The
    exceptions of [run_pipeline] itself come in with [process_outcome]
    below. *)
Definition run_outcome (s : Sys) : option Outcome :=
  match cpc s with
  | C_Returned => Some Returned
  | _ => None
  end.

(** The source sets no exit status: it never calls [sys.exit].  This is
    the status CPython gives a script whose last statement is the call of
    [run_pipeline]: 0 when the call returns, 1 when an exception is left
    uncaught. *)
Definition exit_status (o : Outcome) : Z :=
  match o with
  | Returned => 0
  | Uncaught => 1
  end.

(** *** Deposits and takes in sequence *)

(** One thread at a time at the mailbox: the producer runs [on_new_sample],
    or the worker holds the lock once at line 117. *)
Inductive MailboxOp : Type :=
| OpDeposit (sample : Sample)
| OpTake.

(** The frames the worker receives over a sequence of mailbox operations,
    oldest first, and the object afterwards. *)
Fixpoint mailbox_run (ops : list MailboxOp) (s : Self) : list Buffer * Self :=
  match ops with
  | [] => ([], s)
  | OpDeposit sample :: rest =>
      mailbox_run rest (state_of (on_new_sample sample s))
  | OpTake :: rest =>
      match take_or_wait s with
      | (Frame b, s') =>
          let (got, s'') := mailbox_run rest s' in (b :: got, s'')
      | (_, s') => mailbox_run rest s'
      end
  end.

Definition op_deposits (ops : list MailboxOp) : list Buffer :=
  omap (fun o => match o with
                 | OpDeposit sample => Some (get_buffer sample)
                 | OpTake => None
                 end) ops.

(** *** Example objects and schedules *)

Definition ex_callback : Buffer -> Size -> Box -> UserResult :=
  fun _ _ _ => Returns (Some "<svg/>").

(** The desktop pipeline of [run_pipeline]: a [videobox] named ['box'] and
    an [rsvgoverlay] named ['overlay']. *)
Definition ex_desktop : Self :=
  init_self ex_callback (640, 480)%Z
    (mkPipeline None (Some (mkVideoBox 0 (-40) 0 (-40))) NULL)
    (Some (mkRsvgOverlay None)) None.

(** The dev-board pipeline of [run_pipeline]: a [glfilterbin] named
    ['glbox'] and a [glsvgoverlaysink] named ['overlaysink']. *)
Definition ex_coral : Self :=
  init_self ex_callback (1920, 1080)%Z
    (mkPipeline (Some (mkGlFilterBin (Some (mkGlBox 0 0 300 300)))) None NULL)
    None (Some (mkGlSvgOverlaySink None)).

(** A pipeline with both mapping elements and both overlay sinks. *)
Definition ex_both : Self :=
  init_self ex_callback (640, 480)%Z
    (mkPipeline (Some (mkGlFilterBin (Some (mkGlBox 1 2 300 300))))
                (Some (mkVideoBox 0 (-40) 0 (-40))) NULL)
    (Some (mkRsvgOverlay None)) (Some (mkGlSvgOverlaySink None)).

(** A pipeline with an appsink and nothing else that [get_box] looks for. *)
Definition ex_bare : Self :=
  init_self ex_callback (640, 480)%Z (mkPipeline None None NULL) None None.

Definition frameA : Sample := mkSample 320 240 1.
Definition frameB : Sample := mkSample 320 240 2.
Definition frameC : Sample := mkSample 320 240 3.

Definition ex_error : Message := mkMessage ERROR "no device" "v4l2src0".
Definition ex_eos : Message := mkMessage EOS EmptyString EmptyString.

(** A whole session: start, the worker goes to wait, frame A is deposited
    and processed, the worker waits again, [quit] ends the main loop, and
    the shutdown sequence runs to the return of [run]. *)
Definition ex_session (quit : Action) : list Action :=
  [ActControl; ActControl; ActControl;     (* lines 54-61 *)
   ActWorker; ActWorker;                   (* lock, wait *)
   ActSample frameA;
   ActProducer; ActProducer; ActProducer; ActProducer;
   ActWorker; ActWorker; ActWorker;        (* lock, take A, process A *)
   ActWorker; ActWorker;                   (* lock, wait *)
   quit;
   ActControl; ActControl;                 (* lines 66-68 *)
   ActControl; ActControl; ActControl; ActControl;  (* lines 69-71 *)
   ActControl;                             (* line 72: join called *)
   ActWorker; ActWorker;                   (* lock, break *)
   ActControl].                            (* join returns *)

(** A frame is deposited while the worker waits, and the session is shut
    down before the worker runs again: the worker re-acquires the lock only
    after line 71. *)
Definition ex_frame_pending_at_shutdown : list Action :=
  [ActControl; ActControl; ActControl;     (* lines 54-61 *)
   ActWorker; ActWorker;                   (* lock, wait *)
   ActSample frameA;
   ActProducer; ActProducer; ActProducer; ActProducer;
   ActQuit;
   ActControl; ActControl;                 (* lines 66-68 *)
   ActControl; ActControl; ActControl; ActControl;  (* lines 69-71 *)
   ActControl;                             (* line 72: join called *)
   ActWorker].                             (* woken: lock *)

(** Frames A, B and C are deposited while the worker, woken by the first
    of them, has not run yet; the session is shut down, and only then does
    the worker get the lock. *)
Definition ex_rapid_deposits_at_shutdown : list Action :=
  [ActControl; ActControl; ActControl;     (* lines 54-61 *)
   ActWorker; ActWorker;                   (* lock, wait *)
   ActSample frameA;
   ActProducer; ActProducer; ActProducer; ActProducer;
   ActSample frameB;
   ActProducer; ActProducer; ActProducer; ActProducer;
   ActSample frameC;
   ActProducer; ActProducer; ActProducer; ActProducer;
   ActQuit;
   ActControl; ActControl;                 (* lines 66-68 *)
   ActControl; ActControl; ActControl; ActControl;  (* lines 69-71 *)
   ActWorker; ActWorker].                  (* lock, break *)

(** *** A finite view of the threads *)

(** What decides whether a thread can move: who owns the lock, where each
    thread is, the flag and whether the slot is full. Frames, samples and
    the rest of [self] are left out. *)
Inductive WrkShape : Type :=
| WS_Unstarted | WS_Top | WS_Locked | WS_Wait | WS_Woken | WS_Have
| WS_Done | WS_Crashed.

Definition wrk_shape (w : WrkPc) : WrkShape :=
  match w with
  | W_Unstarted => WS_Unstarted | W_Top => WS_Top | W_Locked => WS_Locked
  | W_Wait => WS_Wait | W_Woken => WS_Woken | W_Have _ => WS_Have
  | W_Done => WS_Done | W_Crashed _ => WS_Crashed
  end.

Inductive PrdShape : Type :=
| PS_Idle | PS_Pending | PS_Locked | PS_Notify | PS_Release.

Definition prd_shape (p : PrdPc) : PrdShape :=
  match p with
  | P_Idle => PS_Idle | P_Pending _ => PS_Pending | P_Locked _ => PS_Locked
  | P_Notify _ => PS_Notify | P_Release _ => PS_Release
  end.

#[global] Instance CtlPc_eq_dec : EqDecision CtlPc.
Proof. solve_decision. Defined.
#[global] Instance WrkShape_eq_dec : EqDecision WrkShape.
Proof. solve_decision. Defined.
#[global] Instance PrdShape_eq_dec : EqDecision PrdShape.
Proof. solve_decision. Defined.

Record Abs : Type := mkAbs {
  a_lock : option Tid;
  a_cpc : CtlPc;
  a_wrk : WrkShape;
  a_prd : PrdShape;
  a_running : bool;
  a_full : bool }.

Definition abs (s : Sys) : Abs :=
  mkAbs (lock s) (cpc s) (wrk_shape (wpc s)) (prd_shape (ppc s))
        (running (self s)) (truthy (gstbuffer (self s))).

Inductive AbsAction : Type :=
| AControl | AWorker | AProducer | ASample | ABus | AQuit | AEnv.

Definition abs_action (a : Action) : AbsAction :=
  match a with
  | ActControl => AControl
  | ActWorker => AWorker
  | ActProducer => AProducer
  | ActSample _ => ASample
  | ActBus _ => ABus
  | ActQuit | ActInterrupt => AQuit
  | ActDrift _ _ => AEnv
  end.

Definition awake (w : WrkShape) : WrkShape :=
  match w with WS_Wait => WS_Woken | _ => w end.

Definition afinished (w : WrkShape) : bool :=
  match w with WS_Done | WS_Crashed => true | _ => false end.

(** [step_control] on the finite view. *)
Definition astep_control (x : Abs) : Abs :=
  match a_cpc x with
  | C_Start => mkAbs (a_lock x) C_Spawn (a_wrk x) (a_prd x) true (a_full x)
  | C_Spawn =>
      mkAbs (a_lock x) C_Play
            (match a_wrk x with WS_Unstarted => WS_Top | w => w end)
            (a_prd x) (a_running x) (a_full x)
  | C_Play =>
      mkAbs (a_lock x) C_Main (a_wrk x) (a_prd x) (a_running x) (a_full x)
  | C_Main => x
  | C_Stop =>
      mkAbs (a_lock x) C_Drain (a_wrk x) (a_prd x) (a_running x) (a_full x)
  | C_Drain =>
      mkAbs (a_lock x) C_Acquire (a_wrk x) (a_prd x) (a_running x) (a_full x)
  | C_Acquire =>
      match a_lock x with
      | None => mkAbs (Some Control) C_Clear (a_wrk x) (a_prd x)
                      (a_running x) (a_full x)
      | Some _ => x
      end
  | C_Clear => mkAbs (a_lock x) C_Notify (a_wrk x) (a_prd x) false (a_full x)
  | C_Notify =>
      mkAbs (a_lock x) C_Release (awake (a_wrk x)) (a_prd x) (a_running x)
            (a_full x)
  | C_Release =>
      mkAbs None C_Join (a_wrk x) (a_prd x) (a_running x) (a_full x)
  | C_Join =>
      mkAbs (a_lock x) C_Joining (a_wrk x) (a_prd x) (a_running x) (a_full x)
  | C_Joining =>
      if afinished (a_wrk x)
      then mkAbs (a_lock x) C_Returned (a_wrk x) (a_prd x) (a_running x)
                 (a_full x)
      else x
  | C_Returned => x
  end.

(** [step_worker] on the finite view; processing a frame ends in one of two
    ways. *)
Definition astep_worker (x : Abs) : list Abs :=
  match a_wrk x with
  | WS_Top | WS_Woken =>
      match a_lock x with
      | None => [mkAbs (Some Worker) (a_cpc x) WS_Locked (a_prd x)
                       (a_running x) (a_full x)]
      | Some _ => [x]
      end
  | WS_Locked =>
      if a_running x then
        if a_full x
        then [mkAbs None (a_cpc x) WS_Have (a_prd x) (a_running x) false]
        else [mkAbs None (a_cpc x) WS_Wait (a_prd x) (a_running x) (a_full x)]
      else [mkAbs None (a_cpc x) WS_Done (a_prd x) (a_running x) (a_full x)]
  | WS_Have =>
      [mkAbs (a_lock x) (a_cpc x) WS_Top (a_prd x) (a_running x) (a_full x);
       mkAbs (a_lock x) (a_cpc x) WS_Crashed (a_prd x) (a_running x)
             (a_full x)]
  | WS_Unstarted | WS_Wait | WS_Done | WS_Crashed => [x]
  end.

(** [step_producer] on the finite view. *)
Definition astep_producer (x : Abs) : Abs :=
  match a_prd x with
  | PS_Idle => x
  | PS_Pending =>
      match a_lock x with
      | None => mkAbs (Some Producer) (a_cpc x) (a_wrk x) PS_Locked
                      (a_running x) (a_full x)
      | Some _ => x
      end
  | PS_Locked =>
      mkAbs (a_lock x) (a_cpc x) (a_wrk x) PS_Notify (a_running x) true
  | PS_Notify =>
      mkAbs (a_lock x) (a_cpc x) (awake (a_wrk x)) PS_Release (a_running x)
            (a_full x)
  | PS_Release =>
      mkAbs None (a_cpc x) (a_wrk x) PS_Idle (a_running x) (a_full x)
  end.

(** [step] on the finite view: every outcome the step can have. *)
Definition astep (a : AbsAction) (x : Abs) : list Abs :=
  match a with
  | AControl => [astep_control x]
  | AWorker => astep_worker x
  | AProducer => [astep_producer x]
  | ASample =>
      match a_prd x with
      | PS_Idle => [mkAbs (a_lock x) (a_cpc x) (a_wrk x) PS_Pending
                          (a_running x) (a_full x)]
      | _ => [x]
      end
  | ABus =>
      match a_cpc x with
      | C_Main => [x; mkAbs (a_lock x) C_Stop (a_wrk x) (a_prd x)
                            (a_running x) (a_full x)]
      | _ => [x]
      end
  | AQuit =>
      match a_cpc x with
      | C_Main => [mkAbs (a_lock x) C_Stop (a_wrk x) (a_prd x)
                         (a_running x) (a_full x)]
      | _ => [x]
      end
  | AEnv => [x]
  end.

Fixpoint aexec (acts : list AbsAction) (xs : list Abs) : list Abs :=
  match acts with
  | [] => xs
  | a :: rest => aexec rest (flat_map (astep a) xs)
  end.

Definition all_locks : list (option Tid) :=
  [None; Some Control; Some Worker; Some Producer].
Definition all_cpc : list CtlPc :=
  [C_Start; C_Spawn; C_Play; C_Main; C_Stop; C_Drain; C_Acquire; C_Clear;
   C_Notify; C_Release; C_Join; C_Joining; C_Returned].
Definition all_wrk : list WrkShape :=
  [WS_Unstarted; WS_Top; WS_Locked; WS_Wait; WS_Woken; WS_Have; WS_Done;
   WS_Crashed].
Definition all_prd : list PrdShape :=
  [PS_Idle; PS_Pending; PS_Locked; PS_Notify; PS_Release].
Definition all_bool : list bool := [true; false].
Definition all_actions : list AbsAction :=
  [AControl; AWorker; AProducer; ASample; ABus; AQuit; AEnv].

(** [P] holds of every finite view. *)
Definition forall_abs (P : Abs -> bool) : bool :=
  forallb (fun l => forallb (fun c => forallb (fun w => forallb (fun p =>
    forallb (fun r => forallb (fun f => P (mkAbs l c w p r f)) all_bool)
    all_bool) all_prd) all_wrk) all_cpc) all_locks.

(** Who owns the lock is where the threads say; the worker exists once
    spawned; [running] is on from line 54 to line 70; nobody waits after
    the control thread's [notify_all]; [run] returns only after the worker
    has ended. *)
Definition ainv (x : Abs) : bool :=
  bool_decide (a_lock x = Some Control
               <-> a_cpc x ∈ [C_Clear; C_Notify; C_Release])
  && bool_decide (a_lock x = Some Worker <-> a_wrk x = WS_Locked)
  && bool_decide (a_lock x = Some Producer
                  <-> a_prd x ∈ [PS_Locked; PS_Notify; PS_Release])
  && bool_decide (a_wrk x = WS_Unstarted <-> a_cpc x ∈ [C_Start; C_Spawn])
  && bool_decide (a_running x = true
                  <-> a_cpc x ∈ [C_Spawn; C_Play; C_Main; C_Stop; C_Drain;
                                 C_Acquire; C_Clear])
  && bool_decide (a_wrk x = WS_Wait
                  -> a_cpc x ∈ [C_Play; C_Main; C_Stop; C_Drain; C_Acquire;
                                C_Clear; C_Notify])
  && bool_decide (a_cpc x = C_Returned -> afinished (a_wrk x) = true).

Definition returned (x : Abs) : bool := bool_decide (a_cpc x = C_Returned).

(** One round of a fair scheduler once somebody asks to quit: the quit
    request, then one step of each thread. *)
Definition quit_round : list Action :=
  [ActQuit; ActControl; ActWorker; ActProducer].

Definition quit_rounds (n : nat) : list Action :=
  concat (replicate n quit_round).

(** One round of a fair scheduler with nobody asking to quit: one step of
    each thread. *)
Definition turn_round : list Action := [ActControl; ActWorker; ActProducer].

Definition turn_rounds (n : nat) : list Action :=
  concat (replicate n turn_round).

(** The control thread has left the main loop (line 61 is behind it). *)
Definition past_main (x : Abs) : bool :=
  negb (bool_decide (a_cpc x ∈ [C_Start; C_Spawn; C_Play; C_Main])).

(** *** Invariants of the executions *)

(** The event is a [set_property] call on an overlay element. *)
Definition is_set_property (e : Event) : Prop :=
  match e with EvSetProperty _ _ _ => True | _ => False end.

(** Every frame taken so far was deposited, in the same order, and the
    frame in the slot, if any, is the newest deposit and not yet taken. *)
Definition mailbox_inv (s : Sys) : Prop :=
  exists ds,
    deliveries (trace s) `sublist_of` ds
    /\ deposits (trace s) = ds ++ held_frames (self s).

(** A region is cached only after a sample fixed [sink_size]. *)
Definition region_inv (s : Sys) : Prop :=
  sink_size (self s) = None -> box (self s) = None.







(** *** The order of the control thread's actions *)

(** The events only the control thread logs from [run] itself (the bus
    handlers it dispatches are left out). *)
Definition is_control_event (e : Event) : bool :=
  match e with
  | EvSetRunning _ | EvThreadStart | EvSetState _ | EvJoin | EvRunReturn =>
      true
  | EvAcquire Control | EvRelease Control | EvNotifyAll Control => true
  | _ => false
  end.

Definition control_events (tr : list Event) : list Event :=
  List.filter is_control_event tr.

(** Lines 54-72 of [run], in program order. *)
Definition run_sequence : list Event :=
  [EvSetRunning true; EvThreadStart; EvSetState PLAYING; EvSetState NULL;
   EvAcquire Control; EvSetRunning false; EvNotifyAll Control;
   EvRelease Control; EvJoin; EvRunReturn].

(** How many events of [run_sequence] lie behind each point of [run]. *)
Definition progress (c : CtlPc) : nat :=
  match c with
  | C_Start => 0
  | C_Spawn => 1
  | C_Play => 2
  | C_Main | C_Stop => 3
  | C_Drain | C_Acquire => 4
  | C_Clear => 5
  | C_Notify => 6
  | C_Release => 7
  | C_Join => 8
  | C_Joining => 9
  | C_Returned => 10
  end.

(** *** The protocol of the lock *)

(** The owner of the lock of [self.condition] after the events [tr] when
    it was [o] before, or [None] when an event breaks the protocol: the
    lock is acquired only when free and released only by its owner;
    [wait] and [notify_all] are called by the owner, and [wait] gives the
    lock up; the slot is written by the producer and read by the worker,
    and [running] is cleared by the control thread, under the lock. *)
Fixpoint lock_protocol (tr : list Event) (o : option Tid)
    : option (option Tid) :=
  match tr with
  | [] => Some o
  | e :: rest =>
      match e with
      | EvAcquire t =>
          match o with
          | None => lock_protocol rest (Some t)
          | Some _ => None
          end
      | EvRelease t =>
          if decide (o = Some t) then lock_protocol rest None else None
      | EvWait =>
          if decide (o = Some Worker) then lock_protocol rest None else None
      | EvNotifyAll t =>
          if decide (o = Some t) then lock_protocol rest o else None
      | EvDeposit _ =>
          if decide (o = Some Producer) then lock_protocol rest o else None
      | EvTake _ | EvBreak =>
          if decide (o = Some Worker) then lock_protocol rest o else None
      | EvSetRunning false =>
          if decide (o = Some Control) then lock_protocol rest o else None
      | _ => lock_protocol rest o
      end
  end.

(** The producer is inside its [with] block. *)
Definition prd_locked (p : PrdPc) : bool :=
  match p with
  | P_Locked _ | P_Notify _ | P_Release _ => true
  | P_Idle | P_Pending _ => false
  end.

(** *** More of what every reachable view satisfies *)

(** Besides [ainv]: a worker that waits has seen the slot empty, unless the
    producer has written it and is about to notify; a worker that left by
    [break] has seen [running] off; the producer past line 93 has filled the
    slot. *)
Definition winv (x : Abs) : bool :=
  ainv x
  && bool_decide (a_wrk x = WS_Wait -> a_full x = false \/ a_prd x = PS_Notify)
  && bool_decide (a_wrk x = WS_Done -> a_running x = false)
  && bool_decide (a_prd x ∈ [PS_Notify; PS_Release] -> a_full x = true).

(** The worker is not scheduled (its callback is still running): the other
    two threads take turns. *)
Definition busy_round : list Action := [ActControl; ActProducer].

Definition busy_rounds (n : nat) : list Action :=
  concat (replicate n busy_round).

(** The sample the streaming thread is handling in [on_new_sample]. *)
Definition pending_sample (p : PrdPc) : option Sample :=
  match p with
  | P_Idle => None
  | P_Pending sample | P_Locked sample | P_Notify sample | P_Release sample =>
      Some sample
  end.

(** Past line 93 and still inside the [with] block, the slot holds the
    frame the producer has just written. *)
Definition own_frame_inv (s : Sys) : Prop :=
  match ppc s with
  | P_Notify sample | P_Release sample =>
      gstbuffer (self s) = Some (get_buffer sample)
  | _ => True
  end.

(** The producer is on its way through [on_new_sample] with [sample], or
    has returned from it and the frame of [sample] is in the slot. *)
Definition producing (sample : Sample) (s : Sys) : Prop :=
  match ppc s with
  | P_Pending sm | P_Locked sm => sm = sample
  | P_Notify sm | P_Release sm =>
      sm = sample /\ gstbuffer (self s) = Some (get_buffer sample)
  | P_Idle => gstbuffer (self s) = Some (get_buffer sample)
  end.

(** In the main loop, with the producer idle and a frame in the slot: the
    flag is on, and either the lock is free and the worker is outside its
    [with] block and not waiting, or the worker holds the lock. *)
Definition frame_ready (x : Abs) : bool :=
  a_running x
  && match a_lock x, a_wrk x with
     | None, (WS_Top | WS_Woken | WS_Have | WS_Crashed) => true
     | Some Worker, WS_Locked => true
     | _, _ => false
     end.

(** *** The sink size against the frames *)

(** A frame is around (signalled, in the slot or in the worker's hand) only
    after line 91 has recorded the sink size, and the worker has not died
    of anything but the assertion of line 103 or the user function. *)
Definition sink_inv (s : Sys) : Prop :=
  (ppc s <> P_Idle -> sink_size (self s) <> None)
  /\ (gstbuffer (self s) <> None -> sink_size (self s) <> None)
  /\ (forall b, wpc s = W_Have b -> sink_size (self s) <> None)
  /\ (forall e, wpc s = W_Crashed e ->
                e = AssertionError glbox_or_box \/ e = CallbackError).

Definition is_sample (a : Action) : bool :=
  match a with ActSample _ => true | _ => false end.

(** The values sent to the property of one overlay element, oldest first. *)
Definition sent (elem : string) (tr : list Event) : list string :=
  omap (fun e => match e with
                 | EvSetProperty el _ v =>
                     if String.eqb el elem then Some v else None
                 | _ => None
                 end) tr.

(** A callback that always raises, and an object around it. *)
Definition ex_raising : Buffer -> Size -> Box -> UserResult :=
  fun _ _ _ => Raises.

Definition ex_faulty : Self :=
  init_self ex_raising (640, 480)%Z
    (mkPipeline None (Some (mkVideoBox 0 (-40) 0 (-40))) NULL)
    (Some (mkRsvgOverlay None)) None.

(** *** The overlay sinks against the log *)

(** What a property holds after the values [values] were set on it, when it
    held [initial] before. *)
Definition current (initial : option string) (values : list string)
    : option string :=
  match last values with
  | Some v => Some v
  | None => initial
  end.

(** Each sink the pipeline has holds the last value sent to it, only
    non-empty values are sent, a sink the pipeline lacks is sent nothing,
    and two sinks are sent the same values. *)
Definition overlay_inv (ov0 : option RsvgOverlay)
    (os0 : option GlSvgOverlaySink) (s : Sys) : Prop :=
  Forall (fun v => v <> EmptyString) (sent "overlay" (trace s))
  /\ Forall (fun v => v <> EmptyString) (sent "overlaysink" (trace s))
  /\ overlay (self s)
     = (fun o => mkRsvgOverlay
                   (current (ov_data o) (sent "overlay" (trace s)))) <$> ov0
  /\ overlaysink (self s)
     = (fun o => mkGlSvgOverlaySink
                   (current (os_svg o) (sent "overlaysink" (trace s)))) <$> os0
  /\ (ov0 = None -> sent "overlay" (trace s) = [])
  /\ (os0 = None -> sent "overlaysink" (trace s) = [])
  /\ (ov0 <> None -> os0 <> None ->
      sent "overlay" (trace s) = sent "overlaysink" (trace s)).

(** *** Start-up: [detectCoralDevBoard] and the sizes of [run_pipeline] *)

(** [needle in hay] on Python strings: [needle] starts at some position of
    [hay]. *)
Fixpoint contains (needle hay : string) : bool :=
  String.prefix needle hay
  || match hay with
     | EmptyString => false
     | String _ rest => contains needle rest
     end.

(** [detectCoralDevBoard] (lines 196-202).  [model] is what
    [open('/sys/firmware/devicetree/base/model').read()] gives: the text of
    the file, or [None] when opening or reading raises, which the bare
    [except] swallows.  The result is the value returned and the lines
    printed. *)
Definition detectCoralDevBoard (model : option string) : bool * list string :=
  match model with
  | Some text =>
      if contains "MX8MQ" text
      then (true, ["Detected Edge TPU dev board."])
      else (false, [])
  | None => (false, [])
  end.

(** Python floats are IEEE 754 doubles, taken here in the form of their
    specification: sign, significand and exponent, rounded to 53 bits, to
    the nearest and ties to even. *)
Definition prec : Z := 53.
Definition emax : Z := 1024.

(** An [int] as a significand with exponent 0. *)
Definition int_float (n : Z) : SpecFloat.spec_float :=
  match n with
  | Z0 => SpecFloat.S754_zero false
  | Zpos m => SpecFloat.S754_finite false m 0
  | Zneg m => SpecFloat.S754_finite true m 0
  end.

(** Where an [int] is converted or two [int]s are divided, a result
    beyond the largest double is an OverflowError, not an infinity. *)
Definition finite (x : SpecFloat.spec_float) : option SpecFloat.spec_float :=
  match x with
  | SpecFloat.S754_infinity _ | SpecFloat.S754_nan => None
  | _ => Some x
  end.

(** The [int] operand of a float operation, converted: the nearest
    double, or OverflowError. *)
Definition float_of_int (n : Z) : option SpecFloat.spec_float :=
  finite (SpecFloat.binary_normalize prec emax n 0 false).

(** [a / b] on two [int]s: the exact quotient rounded once to the nearest
    double, whatever the size of [a] and [b]; ZeroDivisionError when [b]
    is 0 and OverflowError when the quotient is beyond the largest
    double. *)
Definition true_div (a b : Z) : option SpecFloat.spec_float :=
  if (b =? 0)%Z then None
  else finite (SpecFloat.SFdiv prec emax (int_float a) (int_float b)).

(** [min(a, b)]: the second argument only when it is strictly smaller. *)
Definition py_min (a b : SpecFloat.spec_float) : SpecFloat.spec_float :=
  if SpecFloat.SFltb b a then b else a.

(** [x * y] for an [int] [x] and a float [y]. *)
Definition py_mul (x : Z) (y : SpecFloat.spec_float)
    : option SpecFloat.spec_float :=
  fx ← float_of_int x;
  Some (SpecFloat.SFmul prec emax fx y).

(** [int(x)]: truncation towards zero; OverflowError on an infinity and
    ValueError on a NaN. *)
Definition py_int (x : SpecFloat.spec_float) : option Z :=
  match x with
  | SpecFloat.S754_zero _ => Some 0%Z
  | SpecFloat.S754_finite s m e =>
      let a := if (0 <=? e)%Z then Z.shiftl (Z.pos m) e
               else Z.shiftr (Z.pos m) (- e) in
      Some (if s then (- a)%Z else a)
  | SpecFloat.S754_infinity _ | SpecFloat.S754_nan => None
  end.

(** Line 220: [tuple(int(x * scale) for x in src_size)] with
    [src_size = (640, 480)]. *)
Definition scale_of (scale : SpecFloat.spec_float) : option Size :=
  fa ← py_mul 640 scale;
  a ← py_int fa;
  fb ← py_mul 480 scale;
  b ← py_int fb;
  Some (a, b).

(** Lines 218-220 of [run_pipeline]: the size the camera frames are scaled
    to before they are boxed to [appsink_size]; [None] when line 219 or
    line 220 raises. *)
Definition scaled_size (appsink_size : Size) : option Size :=
  sx ← true_div appsink_size.1 640;
  sy ← true_div appsink_size.2 480;
  scale_of (py_min sx sy).

(** What [run_pipeline] hands on: the scaled size, [None] on the dev
    board, and the object it calls [run()] on. *)
Record Launch : Type := mkLaunch {
  launch_scale : option Size;
  launch_self : Self }.

(** [run_pipeline] (lines 204-242) without the text of the pipeline
    description: [p], [ov] and [os] are what [Gst.parse_launch] and the
    lookups of ['overlay'] and ['overlaysink'] give for it (lines 38-40),
    and the parsing is taken to succeed.  [None] stands for the
    OverflowError of line 219 or line 220, which leaves [run_pipeline]
    before the object is built. *)
Definition run_pipeline (model : option string)
    (user_function : Buffer -> Size -> Box -> UserResult)
    (appsink_size : Size) (p : Pipeline) (ov : option RsvgOverlay)
    (os : option GlSvgOverlaySink) : option Launch :=
  if (detectCoralDevBoard model).1 then
    Some (mkLaunch None (init_self user_function (1920, 1080)%Z p ov os))
  else
    scale ← scaled_size appsink_size;
    Some (mkLaunch (Some scale) (init_self user_function (640, 480)%Z p ov os)).

(** How a script that ends with the call of [run_pipeline] has ended after
    the threads took the steps [acts]: an exception out of line 219 or 220
    leaves the main thread; otherwise the call ends as [run()] does. *)
Definition process_outcome (launch : option Launch) (acts : list Action)
    : option Outcome :=
  match launch with
  | None => Some Uncaught
  | Some l => run_outcome (exec acts (init_sys (launch_self l)))
  end.

(** The same scaling in exact arithmetic: the largest 4:3 size that fits
    [w] by [h], each side rounded down. *)
Definition exact_fit (w h : Z) : Size :=
  if (3 * w <=? 4 * h)%Z then (w, 3 * w / 4)%Z else (4 * h / 3, h)%Z.

(** The scaled size fits [w] by [h] and each side is the exact one or one
    pixel less. *)
Definition fits (w h : Z) (r : option Size) : bool :=
  match r with
  | Some (a, b) =>
      let e := exact_fit w h in
      (a <=? w)%Z && (b <=? h)%Z
      && (e.1 - 1 <=? a)%Z && (a <=? e.1)%Z
      && (e.2 - 1 <=? b)%Z && (b <=? e.2)%Z
  | None => false
  end.

(** What line 219-220 give from the two quotients [x] and [y] and the
    sizes each of them gives as the scale. *)
Definition pick (x y : option SpecFloat.spec_float) (by_x by_y : option Size)
    : option Size :=
  match x, y with
  | Some x, Some y => if SpecFloat.SFltb y x then by_y else by_x
  | _, _ => None
  end.

(** Tables of the two quotients of line 219 with the size each gives when it
    is the minimum, and the check of [fits] over all pairs of entries. *)
Definition row_w (w : Z) : Z * option SpecFloat.spec_float * option Size :=
  let x := true_div w 640 in (w, x, x ≫= scale_of).

Definition row_h (h : Z) : Z * option SpecFloat.spec_float * option Size :=
  let y := true_div h 480 in (h, y, y ≫= scale_of).

Definition check_tables
    (tw th : list (Z * option SpecFloat.spec_float * option Size)) : bool :=
  List.forallb (fun '(w, x, by_w) =>
    List.forallb (fun '(h, y, by_h) =>
      fits w h (pick x y by_w by_h)) th) tw.

(** The integers from 0 to [n - 1]. *)
Definition upto (n : nat) : list Z := List.map Z.of_nat (List.seq 0 n).

(** ** Theorems *)

(** *** Region resolution *)

(** [get_box] case by case, with the monad unfolded. *)
Lemma get_box_cases (s : Self) :
  get_box s =
  match box s with
  | Some r => (Ok r, s, [])
  | None =>
      match lookup_glbox (pipeline s), el_box (pipeline s), sink_size s with
      | None, None, _ => (Raise (AssertionError glbox_or_box), s, [])
      | _, _, None => (Raise (AssertionError sink_size_known), s, [])
      | Some g, _, Some _ =>
          let r := (gl_x g, gl_y g, gl_width g, gl_height g) in
          (Ok r, set_box (Some r) s, [])
      | None, Some b, Some sz =>
          let r := (- vb_left b, - vb_top b,
                    sz.1 + vb_left b + vb_right b,
                    sz.2 + vb_top b + vb_bottom b)%Z in
          (Ok r, set_box (Some r) s, [])
      end
  end.
Proof.
  unfold get_box, mbind, M_bind, get_self. simpl.
  destruct (box s) as [r|] eqn:Hbox; simpl.
  - rewrite Hbox. reflexivity.
  - destruct (lookup_glbox (pipeline s)) as [g|], (el_box (pipeline s)) as [b|],
      (sink_size s) as [sz|]; reflexivity.
Qed.

Lemma get_box_cached (s : Self) (r : Box) :
  box s = Some r -> get_box s = (Ok r, s, []).
Proof. intros H. rewrite get_box_cases, H. reflexivity. Qed.

Lemma get_box_ok_caches (s : Self) (r : Box) :
  res_of (get_box s) = Ok r -> box (state_of (get_box s)) = Some r.
Proof.
  rewrite get_box_cases.
  destruct (box s) as [r0|] eqn:Hbox.
  - unfold res_of, state_of; simpl. intros [= ->]. exact Hbox.
  - destruct (lookup_glbox (pipeline s)) as [g|], (el_box (pipeline s)) as [b|],
      (sink_size s) as [sz|]; unfold res_of, state_of; simpl;
      intros [= <-]; reflexivity.
Qed.

(** What a call of [get_box] leaves of [self]: only [box] may change, and
    only from [None], and only when [sink_size] is known. *)
Lemma get_box_frame (s : Self) :
  let s' := state_of (get_box s) in
  user_function s' = user_function s /\ running s' = running s
  /\ gstbuffer s' = gstbuffer s /\ sink_size s' = sink_size s
  /\ src_size s' = src_size s /\ pipeline s' = pipeline s
  /\ overlay s' = overlay s /\ overlaysink s' = overlaysink s
  /\ (box s' = box s \/ (box s = None /\ sink_size s <> None)).
Proof.
  rewrite get_box_cases.
  destruct (box s) as [r0|] eqn:Hbox; [unfold state_of; simpl; tauto|].
  destruct (lookup_glbox (pipeline s)) as [g|], (el_box (pipeline s)) as [b|],
    (sink_size s) as [sz|] eqn:Hsz; unfold state_of; simpl;
    repeat split; auto; right; split; congruence.
Qed.

(** [publish] case by case. *)
Lemma publish_cases (svg : option string) (s : Self) :
  publish svg s =
  match svg with
  | Some (String c t) =>
      let text := String c t in
      (Ok tt,
       mkSelf (user_function s) (running s) (gstbuffer s) (sink_size s)
              (src_size s) (box s) (pipeline s)
              (if truthy (overlay s)
               then Some (mkRsvgOverlay (Some text)) else overlay s)
              (if truthy (overlaysink s)
               then Some (mkGlSvgOverlaySink (Some text)) else overlaysink s),
       (if truthy (overlay s)
        then [EvSetProperty "overlay" "data" text] else [])
       ++ (if truthy (overlaysink s)
           then [EvSetProperty "overlaysink" "svg" text] else []))
  | _ => (Ok tt, s, [])
  end.
Proof.
  destruct svg as [[|c t]|]; try reflexivity.
  destruct s as [f rn gb ss src bx pl [ov|] [os|]]; reflexivity.
Qed.

Lemma publish_frame (svg : option string) (s : Self) :
  let s' := state_of (publish svg s) in
  res_of (publish svg s) = Ok tt
  /\ user_function s' = user_function s /\ running s' = running s
  /\ gstbuffer s' = gstbuffer s /\ sink_size s' = sink_size s
  /\ src_size s' = src_size s /\ pipeline s' = pipeline s /\ box s' = box s.
Proof.
  rewrite publish_cases.
  destruct svg as [[|c t]|]; unfold res_of, state_of; simpl; tauto.
Qed.

(** [process_frame] in terms of its three calls. *)
Lemma process_frame_cases (b : Buffer) (s : Self) :
  process_frame b s =
  match get_box s with
  | (Ok r, s1, out1) =>
      match user_function s1 b (src_size s1) r with
      | Returns svg =>
          match publish svg s1 with
          | (res, s2, out2) => (res, s2, out1 ++ out2)
          end
      | Raises => (Raise CallbackError, s1, out1 ++ [])
      end
  | (Raise e, s1, out1) => (Raise e, s1, out1)
  end.
Proof.
  unfold process_frame, mbind, M_bind.
  destruct (get_box s) as [[[r|e] s1] out1]; [|reflexivity].
  unfold call_user, mbind, M_bind, get_self; simpl.
  destruct (user_function s1 b (src_size s1) r) as [svg|]; simpl.
  - destruct (publish svg s1) as [[res s2] out2]. reflexivity.
  - reflexivity.
Qed.

(** What the worker's processing of one frame leaves of [self]. *)
Lemma process_frame_frame (b : Buffer) (s : Self) :
  let s' := state_of (process_frame b s) in
  running s' = running s /\ gstbuffer s' = gstbuffer s
  /\ sink_size s' = sink_size s /\ pipeline s' = pipeline s
  /\ (box s' = box s \/ (box s = None /\ sink_size s <> None)).
Proof.
  rewrite process_frame_cases.
  pose proof (get_box_frame s) as Hg. simpl in Hg.
  destruct (get_box s) as [[[r|e] s1] out1]; unfold state_of in *; simpl in *;
    [|tauto].
  destruct (user_function s1 b (src_size s1) r) as [svg|]; simpl; [|tauto].
  pose proof (publish_frame svg s1) as Hp. simpl in Hp.
  destruct (publish svg s1) as [[res s2] out2]; unfold state_of, res_of in *;
    simpl in *.
  destruct Hg as (?&?&?&?&?&?&?&?&?), Hp as (?&?&?&?&?&?&?&?).
  repeat split; congruence.
Qed.

(** *** What the steps log *)

Lemma publish_out (svg : option string) (s : Self) :
  Forall is_set_property (out_of (publish svg s)).
Proof.
  rewrite publish_cases.
  destruct svg as [[|c t]|]; unfold out_of; simpl; try constructor.
  destruct (truthy (overlay s)), (truthy (overlaysink s)); simpl;
    repeat constructor.
Qed.

(** The worker, while it processes a frame, only sets overlay properties. *)
Lemma process_frame_out (b : Buffer) (s : Self) :
  Forall is_set_property (out_of (process_frame b s)).
Proof.
  rewrite process_frame_cases, get_box_cases.
  assert (Hpub : forall svg s1, Forall is_set_property (publish svg s1).2)
    by apply publish_out.
  destruct (box s) as [r0|];
    [|destruct (lookup_glbox (pipeline s)) as [g|],
        (el_box (pipeline s)) as [vb|], (sink_size s) as [sz|]];
    unfold out_of; simpl; try constructor;
    match goal with
    | |- context [user_function ?f ?b ?sz ?r] =>
        destruct (user_function f b sz r) as [svg|]; simpl; try constructor
    end;
    match goal with
    | |- context [publish ?v ?s1] =>
        specialize (Hpub v s1); destruct (publish v s1) as [[res s2] out2];
        exact Hpub
    end.
Qed.

Lemma deposits_app (t1 t2 : list Event) :
  deposits (t1 ++ t2) = deposits t1 ++ deposits t2.
Proof. apply omap_app. Qed.

Lemma deliveries_app (t1 t2 : list Event) :
  deliveries (t1 ++ t2) = deliveries t1 ++ deliveries t2.
Proof. apply omap_app. Qed.

Lemma set_property_no_frames (out : list Event) :
  Forall is_set_property out -> deposits out = [] /\ deliveries out = [].
Proof.
  induction 1 as [|e out He _ [IH1 IH2]]; [split; reflexivity|].
  destruct e; try contradiction. simpl. auto.
Qed.

Lemma on_bus_message_no_frames (m : Message) :
  deposits (on_bus_message m) = [] /\ deliveries (on_bus_message m) = [].
Proof. unfold on_bus_message. destruct (msg_type m); split; reflexivity. Qed.

(** *** The mailbox against the log *)

Lemma take_or_wait_frame_inv (sf sf' : Self) (b : Buffer) :
  take_or_wait sf = (Frame b, sf') ->
  gstbuffer sf = Some b /\ running sf = true /\ sf' = set_gstbuffer None sf.
Proof.
  unfold take_or_wait.
  destruct (gstbuffer sf) as [b0|], (running sf); simpl; intros [= <- <-]; auto.
Qed.

Lemma take_or_wait_other_inv (sf sf' : Self) (t : Taken) :
  take_or_wait sf = (t, sf') -> (forall b, t <> Frame b) -> sf' = sf.
Proof.
  unfold take_or_wait.
  destruct (gstbuffer sf) as [b0|], (running sf); simpl; intros [= <- <-] Hne;
    try reflexivity.
  destruct (Hne b0 eq_refl).
Qed.

Lemma mailbox_inv_step (a : Action) (s : Sys) :
  mailbox_inv s -> mailbox_inv (step a s).
Proof.
  intros (ds & Hsub & Hdep). unfold mailbox_inv.
  destruct a; simpl.
  - (* control: never touches the slot, logs no frame *)
    destruct s as [sf lk c w p tr]; unfold step_control; simpl in *.
    destruct c; simpl; try destruct lk; try destruct (finished w); simpl;
      rewrite ?deposits_app, ?deliveries_app; simpl; rewrite ?app_nil_r;
      exists ds; auto.
  - (* worker *)
    destruct s as [sf lk c w p tr]; unfold step_worker; simpl in *.
    destruct w as [| | | | |b| |e]; simpl; try (exists ds; auto; fail).
    + destruct lk; simpl; rewrite ?deposits_app, ?deliveries_app; simpl;
        rewrite ?app_nil_r; exists ds; auto.
    + destruct (take_or_wait sf) as [[| |b] sf'] eqn:Ht; simpl;
        rewrite ?deposits_app, ?deliveries_app; simpl; rewrite ?app_nil_r.
      * apply take_or_wait_other_inv in Ht; [subst sf'|discriminate].
        exists ds; auto.
      * apply take_or_wait_other_inv in Ht; [subst sf'|discriminate].
        exists ds; auto.
      * apply take_or_wait_frame_inv in Ht as (Hb & _ & ->).
        unfold held_frames in *; simpl. rewrite Hb in Hdep.
        exists (ds ++ [b]). split.
        -- apply sublist_app; [exact Hsub|reflexivity].
        -- rewrite app_nil_r. exact Hdep.
    + destruct lk; simpl; rewrite ?deposits_app, ?deliveries_app; simpl;
        rewrite ?app_nil_r; exists ds; auto.
    + pose proof (process_frame_frame b sf) as (_ & Hgb & _).
      pose proof (set_property_no_frames _ (process_frame_out b sf))
        as [Hd Ht].
      unfold state_of, out_of in *.
      destruct (process_frame b sf) as [[[u|e] sf'] out]; simpl in *;
        rewrite ?deposits_app, ?deliveries_app, Hd, Ht; simpl;
        rewrite ?app_nil_r; unfold held_frames; rewrite Hgb;
        exists ds; auto.
  - (* producer *)
    destruct s as [sf lk c w p tr]; unfold step_producer; simpl in *.
    destruct p as [|sm|sm|sm|sm]; simpl; [|destruct lk| | |]; simpl;
      rewrite ?deposits_app, ?deliveries_app; simpl; rewrite ?app_nil_r;
      try (exists ds; auto; fail).
    exists (ds ++ held_frames sf). split.
    + apply sublist_inserts_r. exact Hsub.
    + unfold held_frames at 2; simpl. rewrite Hdep. reflexivity.
  - (* a new sample is signalled: only sink_size may change *)
    destruct s as [sf lk c w p tr]; simpl in *.
    destruct p; simpl; try (exists ds; auto; fail).
    exists ds. split; [exact Hsub|]. rewrite Hdep. f_equal.
    unfold observe_caps, held_frames. destruct (sink_size sf); reflexivity.
  - (* bus message *)
    destruct s as [sf lk c w p tr]; unfold step_bus; simpl in *.
    pose proof (on_bus_message_no_frames m) as [Hd Ht].
    destruct c; simpl; rewrite ?deposits_app, ?deliveries_app, ?Hd, ?Ht;
      rewrite ?app_nil_r; exists ds; auto.
  - destruct s as [sf lk c w p tr]; simpl in *.
    destruct c; simpl; rewrite ?deposits_app, ?deliveries_app; simpl;
      rewrite ?app_nil_r; exists ds; auto.
  - destruct s as [sf lk c w p tr]; simpl in *.
    destruct c; simpl; exists ds; auto.
  - destruct s as [sf lk c w p tr]; simpl in *. exists ds; auto.
Qed.

Lemma mailbox_inv_exec (acts : list Action) (s : Sys) :
  mailbox_inv s -> mailbox_inv (exec acts s).
Proof.
  revert s. induction acts as [|a acts IH]; intros s H; simpl; [exact H|].
  apply IH, mailbox_inv_step, H.
Qed.

Lemma mailbox_inv_init (s0 : Self) :
  gstbuffer s0 = None -> mailbox_inv (init_sys s0).
Proof.
  intros H. exists []. unfold held_frames. simpl. rewrite H. split; constructor.
Qed.

(** *** The cached region against the steps *)

Lemma take_or_wait_region (sf : Self) :
  box (take_or_wait sf).2 = box sf
  /\ sink_size (take_or_wait sf).2 = sink_size sf.
Proof.
  unfold take_or_wait.
  destruct (gstbuffer sf), (running sf); simpl; auto.
Qed.

(** A step writes [box] only when it was [None] and [sink_size] was known,
    and writes [sink_size] only when it was [None]. *)
Lemma step_region (a : Action) (s : Sys) :
  (box (self (step a s)) = box (self s)
   \/ (box (self s) = None /\ sink_size (self s) <> None))
  /\ (sink_size (self (step a s)) = sink_size (self s)
      \/ (sink_size (self s) = None /\ sink_size (self (step a s)) <> None)).
Proof.
  destruct s as [sf lk c w p tr]; destruct a; simpl.
  - unfold step_control; simpl.
    destruct c; simpl; try destruct lk; try destruct (finished w); simpl; auto.
  - unfold step_worker; simpl.
    destruct w as [| | | | |b| |e]; simpl;
      [|destruct lk| | |destruct lk| | |]; simpl; auto.
    + pose proof (take_or_wait_region sf) as [Hb Hs].
      destruct (take_or_wait sf) as [[| |b] sf']; simpl in *;
        rewrite Hb, Hs; auto.
    + pose proof (process_frame_frame b sf) as (_ & _ & Hs & _ & Hb).
      unfold state_of in *.
      destruct (process_frame b sf) as [[[u|e] sf'] out]; simpl in *;
        rewrite Hs; auto.
  - unfold step_producer; simpl.
    destruct p; simpl; try destruct lk; simpl; auto.
  - destruct p; simpl; auto. unfold observe_caps.
    destruct (sink_size sf) eqn:Hs; simpl; rewrite ?Hs; auto.
  - unfold step_bus; simpl. destruct c; simpl; auto.
  - destruct c; simpl; auto.
  - destruct c; simpl; auto.
  - auto.
Qed.

(** Once cached, the region is never written again. *)
Lemma box_stable_exec (acts : list Action) (s : Sys) (r : Box) :
  box (self s) = Some r -> box (self (exec acts s)) = Some r.
Proof.
  revert s. induction acts as [|a acts IH]; intros s H; simpl; [exact H|].
  apply IH. destruct (step_region a s) as [[Hb|[Hb _]] _]; congruence.
Qed.

Lemma region_inv_exec (acts : list Action) (s : Sys) :
  region_inv s -> region_inv (exec acts s).
Proof.
  revert s. induction acts as [|a acts IH]; intros s H; simpl; [exact H|].
  apply IH. unfold region_inv in *.
  destruct (step_region a s) as [[Hb|[Hb Hs]] [Hs'|[_ Hs']]]; intros Hn;
    try congruence.
  rewrite Hb. apply H. congruence.
Qed.

(** *** The control thread against the log *)















(** *** Sanity checks on the example session *)

Example ex_session_trace :
  trace (exec (ex_session (ActBus ex_error)) (init_sys ex_desktop)) =
  [EvSetRunning true; EvThreadStart; EvSetState PLAYING;
   EvAcquire Worker; EvWait;
   EvAcquire Producer; EvDeposit 1; EvNotifyAll Producer; EvRelease Producer;
   EvAcquire Worker; EvTake 1; EvRelease Worker;
   EvSetProperty "overlay" "data" "<svg/>";
   EvAcquire Worker; EvWait;
   EvStderr ("Error: no device: v4l2src0" +:+ newline); EvMainQuit;
   EvSetState NULL;
   EvAcquire Control; EvSetRunning false; EvNotifyAll Control;
   EvRelease Control; EvJoin;
   EvAcquire Worker; EvBreak; EvRelease Worker;
   EvRunReturn].
Proof. vm_compute. reflexivity. Qed.

Example ex_session_region :
  box (self (exec (ex_session ActQuit) (init_sys ex_desktop)))
  = Some (0, 40, 320, 160)%Z.
Proof. vm_compute. reflexivity. Qed.

(** *** Properties of the mailbox *)

Lemma on_new_sample_cases (sample : Sample) (s : Self) :
  on_new_sample sample s =
  (Ok OK, deposit (get_buffer sample) (observe_caps sample s),
   [EvAcquire Producer; EvDeposit (get_buffer sample);
    EvNotifyAll Producer; EvRelease Producer]).
Proof. reflexivity. Qed.

Lemma observe_caps_running (sample : Sample) (s : Self) :
  running (observe_caps sample s) = running s.
Proof. unfold observe_caps. destruct (sink_size s); reflexivity. Qed.

Lemma on_new_sample_slot (sample : Sample) (s : Self) :
  gstbuffer (state_of (on_new_sample sample s)) = Some (get_buffer sample)
  /\ running (state_of (on_new_sample sample s)) = running s.
Proof.
  rewrite on_new_sample_cases. unfold state_of; simpl.
  split; [reflexivity|apply observe_caps_running].
Qed.

(** The stepped producer does what [on_new_sample] does: when nobody holds
    the lock, the signalled sample followed by the producer's four steps
    leaves [self] and the log as the method run in one piece does, and
    wakes a waiting worker. *)
Lemma producer_steps_as_on_new_sample (sample : Sample) (s : Sys) :
  ppc s = P_Idle -> lock s = None ->
  let s' := exec [ActSample sample; ActProducer; ActProducer; ActProducer;
                  ActProducer] s in
  self s' = state_of (on_new_sample sample (self s))
  /\ trace s' = trace s ++ out_of (on_new_sample sample (self s))
  /\ lock s' = None /\ ppc s' = P_Idle /\ wpc s' = wake (wpc s)
  /\ cpc s' = cpc s.
Proof.
  destruct s as [sf lk c w p tr]. simpl. intros -> ->. simpl.
  rewrite on_new_sample_cases. unfold state_of, out_of; simpl.
  rewrite <- !app_assoc. simpl. repeat split.
Qed.

(** C1. The mailbox is one slot and the latest frame wins: a deposit
    replaces what the slot held; after two deposits with no take between
    them the slot holds the second frame and nothing else; the take that
    follows hands out that frame and leaves the slot empty, so a further
    take finds no frame (when [running] is off the worker breaks instead of
    taking, and the slot keeps the second frame); and in no state does the
    slot hold more than one frame. *)
Theorem mailbox_latest_frame_wins (s : Self) (a b : Sample) :
  let s1 := state_of (on_new_sample a s) in
  let s2 := state_of (on_new_sample b s1) in
  held_frames s1 = [get_buffer a]
  /\ held_frames s2 = [get_buffer b]
  /\ take_or_wait s2 =
       (if running s
        then (Frame (get_buffer b), set_gstbuffer None s2)
        else (NoMoreWork, s2))
  /\ held_frames (set_gstbuffer None s2) = []
  /\ (forall t : Buffer, (take_or_wait (set_gstbuffer None s2)).1 <> Frame t)
  /\ (forall s' : Self, length (held_frames s') <= 1).
Proof.
  simpl.
  pose proof (on_new_sample_slot a s) as [Ha _].
  pose proof (on_new_sample_slot b (state_of (on_new_sample a s))) as [Hb Hr].
  rewrite (proj2 (on_new_sample_slot a s)) in Hr.
  unfold held_frames. rewrite Ha, Hb. repeat split.
  - unfold take_or_wait. rewrite Hb, Hr. destruct (running s); reflexivity.
  - intros t. unfold take_or_wait; simpl.
    destruct (running _); discriminate.
  - intros s'. destruct (gstbuffer s'); simpl; lia.
Qed.

Lemma mailbox_latest_frame_wins_example :
  take_or_wait
    (state_of (on_new_sample frameB
       (state_of (on_new_sample frameA (set_running true ex_desktop)))))
  = (Frame 2,
     set_gstbuffer None
       (state_of (on_new_sample frameB
          (state_of (on_new_sample frameA (set_running true ex_desktop)))))).
Proof.
  exact (proj1 (proj2 (proj2
    (mailbox_latest_frame_wins (set_running true ex_desktop) frameA frameB)))).
Defined.

(** C2, as the claim has it, fails: when a frame was deposited and the
    session is shut down before the worker takes it, the worker, holding
    the lock at line 117 with [running] off and the frame in the slot,
    breaks (the terminal result); the frame stays in the slot and is never
    handed out. *)
Lemma take_or_wait_stopped_keeps_frame :
  let s := exec ex_frame_pending_at_shutdown (init_sys ex_desktop) in
  wpc s = W_Locked
  /\ running (self s) = false
  /\ gstbuffer (self s) = Some 1
  /\ take_or_wait (self s) = (NoMoreWork, self s)
  /\ wpc (step ActWorker s) = W_Done
  /\ deposits (trace (step ActWorker s)) = [1]
  /\ deliveries (trace (step ActWorker s)) = [].
Proof. vm_compute. repeat split. Qed.

(** C2, amended. At one holding of the lock the worker waits exactly when
    the slot is empty and [running] is on; it gets the terminal result
    exactly when [running] is off, whether or not the slot holds a frame,
    and then leaves the slot as it is; it gets a frame exactly when
    [running] is on and the slot holds that frame, and then the slot is
    emptied. *)
Theorem take_or_wait_by_running_flag (s : Self) :
  ((take_or_wait s).1 = Blocked <-> gstbuffer s = None /\ running s = true)
  /\ ((take_or_wait s).1 = NoMoreWork <-> running s = false)
  /\ (forall b, (take_or_wait s).1 = Frame b
                <-> gstbuffer s = Some b /\ running s = true)
  /\ (forall b, (take_or_wait s).1 = Frame b ->
                (take_or_wait s).2 = set_gstbuffer None s)
  /\ ((forall b, (take_or_wait s).1 <> Frame b) -> (take_or_wait s).2 = s).
Proof.
  unfold take_or_wait.
  destruct (gstbuffer s) as [b0|], (running s); simpl;
    (split; [|split; [|split; [|split]]]);
    try (split; intros; intuition congruence);
    try (intros b; split; intros; intuition congruence);
    try (intros; congruence).
  intros Hne. destruct (Hne b0 eq_refl).
Qed.

Lemma take_or_wait_by_running_flag_example :
  (take_or_wait (set_running true (deposit 7 ex_desktop))).2
  = set_gstbuffer None (set_running true (deposit 7 ex_desktop)).
Proof.
  apply (proj1 (proj2 (proj2 (proj2
    (take_or_wait_by_running_flag (set_running true (deposit 7 ex_desktop))))))
    7).
  reflexivity.
Defined.

(** C8, as the claim has it, fails: after a whole session has been shut
    down ([running] cleared, worker gone, [run] returned), [on_new_sample]
    still returns [Gst.FlowReturn.OK] and stores the frame. *)
Lemma on_new_sample_after_shutdown_succeeds :
  let torn_down := self (exec (ex_session ActQuit) (init_sys ex_desktop)) in
  cpc (exec (ex_session ActQuit) (init_sys ex_desktop)) = C_Returned
  /\ running torn_down = false
  /\ res_of (on_new_sample frameB torn_down) = Ok OK
  /\ gstbuffer (state_of (on_new_sample frameB torn_down)) = Some 2.
Proof. vm_compute. repeat split. Qed.

(** C8, amended. [on_new_sample] never signals anything to its caller:
    whatever [running] is, it returns [Gst.FlowReturn.OK], stores the frame
    in the slot, notifies the condition, and leaves [running] as it was. *)
Theorem on_new_sample_never_refuses (sample : Sample) (s : Self) :
  res_of (on_new_sample sample s) = Ok OK
  /\ gstbuffer (state_of (on_new_sample sample s)) = Some (get_buffer sample)
  /\ running (state_of (on_new_sample sample s)) = running s
  /\ EvNotifyAll Producer ∈ out_of (on_new_sample sample s).
Proof.
  rewrite on_new_sample_cases. unfold res_of, state_of, out_of; simpl.
  repeat split.
  - apply observe_caps_running.
  - do 2 right. left.
Qed.

(** *** Properties of the region *)

(** C6. Region resolution is memoized: once a call of [get_box] has
    returned a region, every later call returns that same region and
    changes nothing, whatever the threads did in between and however the
    properties of the pipeline elements (or the elements themselves) have
    changed. *)
Theorem region_memoized_across_drift (s : Sys) (r : Box)
    (acts : list Action) :
  res_of (get_box (self s)) = Ok r ->
  let s1 := with_self (state_of (get_box (self s))) s in
  get_box (self (exec acts s1)) = (Ok r, self (exec acts s1), []).
Proof.
  intros Hok s1. apply get_box_cached, box_stable_exec.
  unfold s1, with_self; simpl. apply get_box_ok_caches, Hok.
Qed.

Lemma region_memoized_across_drift_example :
  let s := exec [ActSample frameA] (init_sys ex_desktop) in
  let s1 := with_self (state_of (get_box (self s))) s in
  let drift := [ActDrift None (Some (mkVideoBox 5 6 7 8));
                ActControl; ActProducer;
                ActDrift (Some (mkGlFilterBin (Some (mkGlBox 9 9 9 9)))) None]
  in
  get_box (self (exec drift s1))
  = (Ok (0, 40, 320, 160)%Z, self (exec drift s1), []).
Proof.
  apply (region_memoized_across_drift
           (exec [ActSample frameA] (init_sys ex_desktop))
           (0, 40, 320, 160)%Z).
  vm_compute. reflexivity.
Defined.

(** C7, as the claim has it, fails: with [sink_size] known but neither a
    [glbox] filter nor a [box] element in the pipeline, [get_box] does not
    complete; the assertion of line 103 fails. *)
Lemma get_box_faults_with_sink_size_known :
  let s := observe_caps frameA ex_bare in
  sink_size s = Some (320, 240)%Z
  /\ get_box s = (Raise (AssertionError glbox_or_box), s, []).
Proof. split; reflexivity. Qed.

(** C7, amended. In every state an execution reaches, a call of [get_box]
    before any sample has fixed [sink_size] raises an [AssertionError] and
    returns no region. With [sink_size] known, the assertion of line 104
    never fails, and the call returns a region whenever one is cached or
    the pipeline has a [glbox] filter or a [box] element. *)
Theorem get_box_sink_size_precondition :
  (forall f src p ov os acts,
     let s := self (exec acts (init_sys (init_self f src p ov os))) in
     sink_size s = None ->
     exists site, get_box s = (Raise (AssertionError site), s, []))
  /\ (forall s : Self,
        sink_size s <> None ->
        res_of (get_box s) <> Raise (AssertionError sink_size_known)
        /\ (box s <> None \/ lookup_glbox (pipeline s) <> None
            \/ el_box (pipeline s) <> None ->
            exists r, res_of (get_box s) = Ok r)).
Proof.
  split.
  - intros f src p ov os acts s Hs.
    assert (Hbox : box s = None).
    { apply (region_inv_exec acts (init_sys (init_self f src p ov os)));
        [intros _; reflexivity|exact Hs]. }
    rewrite get_box_cases, Hbox, Hs.
    destruct (lookup_glbox (pipeline s)), (el_box (pipeline s)); eauto.
  - intros s Hs. rewrite get_box_cases.
    destruct (box s) as [r0|], (lookup_glbox (pipeline s)) as [g|],
      (el_box (pipeline s)) as [vb|], (sink_size s) as [sz|];
      try (destruct (Hs eq_refl)); unfold res_of; simpl;
      (split; [discriminate|]); eauto.
    intros [H|[H|H]]; destruct (H eq_refl).
Qed.

Lemma get_box_sink_size_precondition_example :
  (exists site,
     get_box (self (exec [ActControl; ActControl] (init_sys ex_desktop)))
     = (Raise (AssertionError site),
        self (exec [ActControl; ActControl] (init_sys ex_desktop)), []))
  /\ exists r, res_of (get_box (observe_caps frameA ex_desktop)) = Ok r.
Proof.
  split.
  - apply (proj1 get_box_sink_size_precondition ex_callback (640, 480)%Z
             (mkPipeline None (Some (mkVideoBox 0 (-40) 0 (-40))) NULL)
             (Some (mkRsvgOverlay None)) None [ActControl; ActControl]).
    reflexivity.
  - apply (proj2 get_box_sink_size_precondition
             (observe_caps frameA ex_desktop)).
    + discriminate.
    + right. right. discriminate.
Defined.

(** C10. With no region cached, [get_box] needs a mapping element: when
    the pipeline has neither a [glbox] filter nor a [box] element the call
    fails the assertion of line 103, so a call that returns a region found
    one of the two; when the [glbox] filter is there (and [sink_size] is
    known) the region is the filter's four properties whatever [box]
    element the pipeline has or lacks; the [box] element is used only when
    there is no filter. *)
Theorem get_box_needs_glbox_or_box (s : Self) :
  box s = None ->
  (lookup_glbox (pipeline s) = None -> el_box (pipeline s) = None ->
   get_box s = (Raise (AssertionError glbox_or_box), s, []))
  /\ (forall r, res_of (get_box s) = Ok r ->
        lookup_glbox (pipeline s) <> None \/ el_box (pipeline s) <> None)
  /\ (forall g sz vb,
        lookup_glbox (pipeline s) = Some g -> sink_size s = Some sz ->
        res_of (get_box
          (set_pipeline
             (mkPipeline (el_glbox (pipeline s)) vb (state (pipeline s))) s))
        = Ok (gl_x g, gl_y g, gl_width g, gl_height g))
  /\ (forall b sz,
        lookup_glbox (pipeline s) = None -> el_box (pipeline s) = Some b ->
        sink_size s = Some sz ->
        res_of (get_box s)
        = Ok (- vb_left b, - vb_top b,
              sz.1 + vb_left b + vb_right b,
              sz.2 + vb_top b + vb_bottom b)%Z).
Proof.
  intros Hbox. repeat split.
  - intros Hg Hb. rewrite get_box_cases, Hbox, Hg, Hb. reflexivity.
  - intros r. rewrite get_box_cases, Hbox.
    destruct (lookup_glbox (pipeline s)) as [g|]; [left; discriminate|].
    destruct (el_box (pipeline s)); [right; discriminate|].
    unfold res_of; simpl. discriminate.
  - intros g sz vb Hg Hs. rewrite get_box_cases. simpl.
    rewrite Hbox, Hs. unfold lookup_glbox in *. simpl.
    destruct (el_glbox (pipeline s)) as [bin|]; [|discriminate].
    rewrite Hg. destruct vb; reflexivity.
  - intros b sz Hg Hb Hs. rewrite get_box_cases, Hbox, Hg, Hb, Hs.
    reflexivity.
Qed.

Lemma get_box_needs_glbox_or_box_example :
  res_of (get_box (observe_caps frameA ex_both)) = Ok (1, 2, 300, 300)%Z.
Proof.
  apply (proj1 (proj2 (proj2
    (get_box_needs_glbox_or_box (observe_caps frameA ex_both) eq_refl)))
    (mkGlBox 1 2 300 300) (320, 240)%Z
    (Some (mkVideoBox 0 (-40) 0 (-40))));
    reflexivity.
Defined.

(** *** Properties of the overlay *)

(** C9. For a frame the worker processes, when the callback returns a
    non-empty description the worker sets it on every overlay sink the
    object has, the ['data'] of [overlay] and the ['svg'] of
    [overlaysink], each with that same text, and makes no other call; when
    the callback returns [None] or the empty string no sink is set. *)
Theorem overlay_published_to_every_sink (frame : Buffer) (s : Self)
    (r : Box) (svg : option string) :
  res_of (get_box s) = Ok r ->
  user_function s frame (src_size s) r = Returns svg ->
  let out := out_of (process_frame frame s) in
  let s' := state_of (process_frame frame s) in
  if truthy_str svg then
    exists text,
      svg = Some text
      /\ out = (if truthy (overlay s)
                then [EvSetProperty "overlay" "data" text] else [])
               ++ (if truthy (overlaysink s)
                   then [EvSetProperty "overlaysink" "svg" text] else [])
      /\ (overlay s <> None -> overlay s' = Some (mkRsvgOverlay (Some text)))
      /\ (overlaysink s <> None ->
          overlaysink s' = Some (mkGlSvgOverlaySink (Some text)))
  else out = [] /\ overlay s' = overlay s /\ overlaysink s' = overlaysink s.
Proof.
  intros Hok Hcall. simpl.
  rewrite process_frame_cases.
  pose proof (get_box_frame s) as (Hf & _ & _ & _ & Hsrc & _ & Hov & Hos & _).
  assert (Hout : out_of (get_box s) = []).
  { rewrite get_box_cases.
    destruct (box s), (lookup_glbox (pipeline s)), (el_box (pipeline s)),
      (sink_size s); reflexivity. }
  unfold res_of, state_of, out_of in *.
  destruct (get_box s) as [[[r'|e] s1] out1]; simpl in *; [|discriminate].
  injection Hok as ->. subst out1.
  rewrite Hf, Hsrc, Hcall, publish_cases, Hov, Hos.
  destruct svg as [[|c t]|]; simpl; auto.
  exists (String c t). split; [reflexivity|]. split; [reflexivity|].
  split; intros Hne.
  - destruct (overlay s); [reflexivity|destruct (Hne eq_refl)].
  - destruct (overlaysink s); [reflexivity|destruct (Hne eq_refl)].
Qed.

Lemma overlay_published_to_every_sink_example :
  exists text,
    Some "<svg/>" = Some text
    /\ out_of (process_frame 1 (observe_caps frameA ex_both))
       = [EvSetProperty "overlay" "data" text;
          EvSetProperty "overlaysink" "svg" text]
    /\ (overlay (observe_caps frameA ex_both) <> None ->
        overlay (state_of (process_frame 1 (observe_caps frameA ex_both)))
        = Some (mkRsvgOverlay (Some text)))
    /\ (overlaysink (observe_caps frameA ex_both) <> None ->
        overlaysink (state_of (process_frame 1 (observe_caps frameA ex_both)))
        = Some (mkGlSvgOverlaySink (Some text))).
Proof.
  exact (overlay_published_to_every_sink 1 (observe_caps frameA ex_both)
           (1, 2, 300, 300)%Z (Some "<svg/>") eq_refl eq_refl).
Defined.

(** *** Properties of executions *)



Lemma mailbox_run_sublist (ops : list MailboxOp) (s : Self) :
  (mailbox_run ops s).1 `sublist_of` held_frames s ++ op_deposits ops.
Proof.
  revert s. induction ops as [|[sample|] ops IH]; intros s; simpl.
  - apply sublist_nil_l.
  - specialize (IH (state_of (on_new_sample sample s))).
    unfold held_frames at 1 in IH.
    rewrite (proj1 (on_new_sample_slot sample s)) in IH.
    apply sublist_inserts_l. exact IH.
  - destruct (take_or_wait s) as [[| |b] s'] eqn:Ht.
    + apply take_or_wait_other_inv in Ht; [subst s'|discriminate]. apply IH.
    + apply take_or_wait_other_inv in Ht; [subst s'|discriminate]. apply IH.
    + apply take_or_wait_frame_inv in Ht as (Hb & _ & ->).
      specialize (IH (set_gstbuffer None s)).
      destruct (mailbox_run ops (set_gstbuffer None s)) as [got s''].
      unfold held_frames in *. rewrite Hb. simpl in *.
      apply sublist_skip. exact IH.
Qed.

Lemma mailbox_run_stopped (ops : list MailboxOp) (s : Self) :
  running s = false -> (mailbox_run ops s).1 = [].
Proof.
  revert s. induction ops as [|[sample|] ops IH]; intros s Hr; simpl.
  - reflexivity.
  - apply IH. rewrite (proj2 (on_new_sample_slot sample s)). exact Hr.
  - unfold take_or_wait. rewrite Hr.
    destruct (gstbuffer s); simpl; apply IH, Hr.
Qed.

(** C4, as the claim has it, fails: frames A, B and C are deposited with
    no take between them, the session is shut down, and the worker's next
    take, with [running] off, is the [break] of line 120: C is not
    returned, nothing is ever delivered, and C stays in the slot. *)
Lemma rapid_deposits_lost_at_shutdown :
  let s := exec ex_rapid_deposits_at_shutdown (init_sys ex_desktop) in
  deposits (trace s) = [1; 2; 3]
  /\ deliveries (trace s) = []
  /\ wpc s = W_Done
  /\ gstbuffer (self s) = Some 3
  /\ EvBreak ∈ trace s.
Proof.
  vm_compute. repeat split. repeat constructor.
Qed.

(** C4, amended. The frames the worker receives are a subsequence of the
    frames deposited, in deposit order: in every execution of the three
    threads the takes logged are a sublist of the deposits logged, so
    nothing is delivered that was not deposited, nothing out of order, and
    nothing twice unless it was deposited twice; the same holds for any
    sequence of deposits and takes at the mailbox. After deposits A, B, C
    with no take between them, the next take returns C, and what the
    worker receives later comes from later deposits only, provided
    [running] is on; when [running] is off, no take returns a frame. *)
Theorem worker_receives_subsequence_of_deposits :
  (forall f src p ov os acts,
     let tr := trace (exec acts (init_sys (init_self f src p ov os))) in
     deliveries tr `sublist_of` deposits tr
     /\ (NoDup (deposits tr) -> NoDup (deliveries tr)))
  /\ (forall ops s,
        gstbuffer s = None ->
        (mailbox_run ops s).1 `sublist_of` op_deposits ops)
  /\ (forall s a b c rest,
        running s = true ->
        exists later,
          (mailbox_run (OpDeposit a :: OpDeposit b :: OpDeposit c
                          :: OpTake :: rest) s).1
          = get_buffer c :: later
          /\ later `sublist_of` op_deposits rest)
  /\ (forall s ops, running s = false -> (mailbox_run ops s).1 = []).
Proof.
  split; [|split; [|split]].
  - intros f src p ov os acts tr.
    assert (Hsub : deliveries tr `sublist_of` deposits tr).
    { destruct (mailbox_inv_exec acts (init_sys (init_self f src p ov os)))
        as (ds & Hsub & Hdep); [apply mailbox_inv_init; reflexivity|].
      fold tr in Hsub, Hdep. rewrite Hdep.
      apply sublist_inserts_r. exact Hsub. }
    split; [exact Hsub|]. intros Hnd. eapply sublist_NoDup; eassumption.
  - intros ops s Hs. pose proof (mailbox_run_sublist ops s) as H.
    unfold held_frames in H. rewrite Hs in H. exact H.
  - intros s a b c rest Hrun. simpl.
    set (s3 := state_of (on_new_sample c
                 (state_of (on_new_sample b (state_of (on_new_sample a s)))))).
    assert (Hr : running s3 = true).
    { unfold s3. rewrite !(fun x y => proj2 (on_new_sample_slot x y)).
      exact Hrun. }
    assert (Hg : gstbuffer s3 = Some (get_buffer c))
      by apply on_new_sample_slot.
    unfold take_or_wait. rewrite Hg, Hr. simpl.
    pose proof (mailbox_run_sublist rest (set_gstbuffer None s3)) as H.
    destruct (mailbox_run rest (set_gstbuffer None s3)) as [got s''].
    exists got. split; [reflexivity|exact H].
  - intros s ops. apply mailbox_run_stopped.
Qed.

Lemma worker_receives_subsequence_of_deposits_example :
  exists later,
    (mailbox_run [OpDeposit frameA; OpDeposit frameB; OpDeposit frameC;
                  OpTake; OpTake; OpDeposit frameA; OpTake]
                 (set_running true ex_desktop)).1
    = 3 :: later
    /\ later `sublist_of` op_deposits [OpTake; OpDeposit frameA; OpTake].
Proof.
  apply (proj1 (proj2 (proj2 worker_receives_subsequence_of_deposits))
           (set_running true ex_desktop) frameA frameB frameC
           [OpTake; OpDeposit frameA; OpTake]).
  reflexivity.
Defined.

Example rapid_deposits_deliver_only_the_last :
  (mailbox_run [OpDeposit frameA; OpDeposit frameB; OpDeposit frameC;
                OpTake; OpTake; OpDeposit frameA; OpTake]
               (set_running true ex_desktop)).1
  = [3; 1].
Proof. vm_compute. reflexivity. Qed.

(** *** The shutdown completes *)

Lemma forallb_at {A} (f : A -> bool) (l : list A) (x : A) :
  forallb f l = true -> In x l -> f x = true.
Proof. intros H. apply List.forallb_forall. exact H. Qed.

Lemma implb_elim (a b : bool) : implb a b = true -> a = true -> b = true.
Proof. destruct a; simpl; congruence. Qed.

Lemma forall_abs_spec (P : Abs -> bool) :
  forall_abs P = true -> forall x, P x = true.
Proof.
  unfold forall_abs. intros H [l c w p r f].
  apply (forallb_at _ _ l) in H; [|destruct l as [[]|]; simpl; auto 10].
  apply (forallb_at _ _ c) in H; [|destruct c; simpl; auto 20].
  apply (forallb_at _ _ w) in H; [|destruct w; simpl; auto 10].
  apply (forallb_at _ _ p) in H; [|destruct p; simpl; auto 10].
  apply (forallb_at _ _ r) in H; [|destruct r; simpl; auto].
  apply (forallb_at _ _ f) in H; [exact H|destruct f; simpl; auto].
Qed.

Lemma observe_caps_gstbuffer (sample : Sample) (s : Self) :
  gstbuffer (observe_caps sample s) = gstbuffer s.
Proof. unfold observe_caps. destruct (sink_size s); reflexivity. Qed.

Ltac in_list :=
  first [apply list_elem_of_here
        |apply list_elem_of_further, list_elem_of_here].

(** The finite view follows the system: whatever a step does, the view of
    the result is one of the outcomes [astep] lists. *)
Lemma abs_step (a : Action) (s : Sys) :
  abs (step a s) ∈ astep (abs_action a) (abs s).
Proof.
  destruct s as [sf lk c w p tr]; destruct a; unfold abs; simpl.
  - unfold step_control, astep_control; simpl.
    destruct c; simpl; try in_list.
    + destruct w; in_list.
    + destruct lk; in_list.
    + destruct w; in_list.
    + destruct w; in_list.
  - unfold step_worker, astep_worker; simpl.
    destruct w as [| | | | |b| |e]; simpl; try in_list.
    + destruct lk; in_list.
    + unfold take_or_wait.
      destruct (gstbuffer sf) eqn:Hg, (running sf) eqn:Hr; simpl;
        rewrite ?Hr, ?Hg; in_list.
    + destruct lk; in_list.
    + pose proof (process_frame_frame b sf) as (Hr & Hg & _).
      unfold state_of in *.
      destruct (process_frame b sf) as [[[u|e] sf'] out]; simpl in *;
        rewrite Hr, Hg; in_list.
  - unfold step_producer, astep_producer; simpl.
    destruct p; simpl; try in_list.
    + destruct lk; in_list.
    + destruct w; in_list.
  - destruct p; simpl;
      rewrite ?observe_caps_running, ?observe_caps_gstbuffer; in_list.
  - unfold step_bus; simpl. destruct c; simpl; try in_list.
    destruct (calls_main_quit (on_bus_message m)); in_list.
  - destruct c; simpl; in_list.
  - destruct c; simpl; in_list.
  - in_list.
Qed.

Lemma abs_exec (acts : list Action) (s : Sys) (xs : list Abs) :
  abs s ∈ xs -> abs (exec acts s) ∈ aexec (abs_action <$> acts) xs.
Proof.
  revert s xs. induction acts as [|a acts IH]; intros s xs Hin; simpl;
    [exact Hin|].
  apply IH. apply list_elem_of_In, in_flat_map. exists (abs s).
  split; apply list_elem_of_In; [exact Hin|apply abs_step].
Qed.

(** [ainv] is kept by every outcome of every step: checked on all views. *)
Lemma ainv_inductive :
  forall_abs (fun x =>
    implb (ainv x)
          (forallb (fun a => forallb ainv (astep a x)) all_actions)) = true.
Proof. vm_compute. reflexivity. Qed.

(** From every view that satisfies [ainv], twelve rounds leave the control
    thread returned, whichever way the frames in flight are processed:
    checked on all views. *)
Lemma quit_rounds_return :
  forall_abs (fun x =>
    implb (ainv x)
          (forallb returned
                   (aexec (abs_action <$> quit_rounds 12) [x]))) = true.
Proof. vm_compute. reflexivity. Qed.

Lemma ainv_step (a : Action) (s : Sys) :
  ainv (abs s) = true -> ainv (abs (step a s)) = true.
Proof.
  intros Hinv.
  pose proof (implb_elim _ _ (forall_abs_spec _ ainv_inductive (abs s))
                Hinv) as H.
  apply (forallb_at _ _ (abs_action a)) in H; [|destruct a; simpl; auto 10].
  apply (forallb_at _ _ (abs (step a s))) in H; [exact H|].
  apply list_elem_of_In, abs_step.
Qed.

Lemma ainv_exec (acts : list Action) (s : Sys) :
  ainv (abs s) = true -> ainv (abs (exec acts s)) = true.
Proof.
  revert s. induction acts as [|a acts IH]; intros s H; simpl; [exact H|].
  apply IH, ainv_step, H.
Qed.

Lemma abs_cpc (s : Sys) : a_cpc (abs s) = cpc s.
Proof. reflexivity. Qed.

Lemma abs_finished (s : Sys) : afinished (a_wrk (abs s)) = finished (wpc s).
Proof. destruct s as [sf lk c [] p tr]; reflexivity. Qed.

Lemma returned_in (views : list Abs) (s : Sys) :
  forallb returned views = true -> abs s ∈ views -> cpc s = C_Returned.
Proof.
  intros H Hin. apply list_elem_of_In in Hin.
  pose proof (forallb_at _ _ _ H Hin) as Hr.
  unfold returned in Hr. apply bool_decide_eq_true in Hr. exact Hr.
Qed.

Lemma quit_rounds_from_inv (s : Sys) :
  ainv (abs s) = true -> cpc (exec (quit_rounds 12) s) = C_Returned.
Proof.
  intros Hinv.
  exact (returned_in _ _
           (implb_elim _ _
              (forall_abs_spec _ quit_rounds_return (abs s)) Hinv)
           (abs_exec (quit_rounds 12) s [abs s] (list_elem_of_here _ _))).
Qed.

Lemma ainv_init f src p ov os :
  ainv (abs (init_sys (init_self f src p ov os))) = true.
Proof. vm_compute. reflexivity. Qed.

(** No deadlock at shutdown: from every state an execution reaches, once a
    quit is requested and each thread is given its turn, [run] returns
    within twelve rounds. *)
Lemma shutdown_completes f src p ov os (acts : list Action) :
  cpc (exec (quit_rounds 12)
            (exec acts (init_sys (init_self f src p ov os)))) = C_Returned.
Proof. apply quit_rounds_from_inv, ainv_exec, ainv_init. Qed.

(** [run] returns only after the worker thread has ended. *)
Lemma returned_after_worker_ended (s : Sys) :
  ainv (abs s) = true -> cpc s = C_Returned -> finished (wpc s) = true.
Proof.
  intros Hinv Hc.
  unfold ainv in Hinv. apply andb_prop in Hinv as [_ Hfin].
  apply bool_decide_eq_true in Hfin.
  rewrite abs_cpc, abs_finished in Hfin. exact (Hfin Hc).
Qed.

Lemma returned_exit_status (s : Sys) :
  cpc s = C_Returned -> exit_status <$> run_outcome s = Some 0%Z.
Proof. unfold run_outcome. intros ->. reflexivity. Qed.

(** X1. The shutdown cannot deadlock: from every state an execution of the
    three threads reaches, once a quit is requested and every thread is
    given its turn, [run] has returned within twelve rounds, however the
    worker's frames in flight are processed, and when [run] has returned
    the worker thread has ended (by its [break] or by an exception). *)
Theorem shutdown_never_deadlocks
    (f : Buffer -> Size -> Box -> UserResult) (src : Size) (p : Pipeline)
    (ov : option RsvgOverlay) (os : option GlSvgOverlaySink)
    (acts : list Action) :
  cpc (exec (quit_rounds 12)
            (exec acts (init_sys (init_self f src p ov os)))) = C_Returned
  /\ finished (wpc (exec (quit_rounds 12)
                         (exec acts (init_sys (init_self f src p ov os)))))
     = true.
Proof.
  pose proof (shutdown_completes f src p ov os acts) as Hc.
  split; [exact Hc|].
  apply returned_after_worker_ended; [|exact Hc].
  apply ainv_exec, ainv_exec, ainv_init.
Qed.

(** C5, as the claim has it, fails: in a session that a fatal ERROR
    message ends, the handler writes the error to stderr and quits the
    main loop, the teardown runs, and [run], and with it [run_pipeline],
    returns as it does after end-of-stream; the exit status is 0. *)
Lemma error_session_exits_with_status_zero :
  let launch := run_pipeline None ex_callback (300, 300)%Z
                  (pipeline ex_desktop) (overlay ex_desktop)
                  (overlaysink ex_desktop) in
  let s := exec (ex_session (ActBus ex_error)) (init_sys ex_desktop) in
  launch_self <$> launch = Some ex_desktop
  /\ EvStderr ("Error: no device: v4l2src0" +:+ newline) ∈ trace s
  /\ state (pipeline (self s)) = NULL
  /\ exit_status <$> process_outcome launch (ex_session (ActBus ex_error))
     = Some 0%Z.
Proof.
  vm_compute. split; [reflexivity|]. split; [|split; reflexivity].
  do 15 right. left.
Qed.

Lemma on_bus_message_quits (m : Message) :
  calls_main_quit (on_bus_message m) = true
  <-> msg_type m = EOS \/ msg_type m = ERROR.
Proof.
  unfold on_bus_message, calls_main_quit.
  destruct (msg_type m); simpl; split; auto;
    try (intros [H|H]; discriminate); try reflexivity;
    try discriminate.
Qed.

(** Once the control thread has left the main loop, twelve rounds leave it
    returned, with nobody asking to quit: checked on all views. *)
Lemma turn_rounds_return :
  forall_abs (fun x =>
    implb (ainv x && past_main x)
          (forallb returned
                   (aexec (abs_action <$> turn_rounds 12) [x]))) = true.
Proof. vm_compute. reflexivity. Qed.

Lemma turn_rounds_from_inv (s : Sys) :
  ainv (abs s) = true -> past_main (abs s) = true ->
  cpc (exec (turn_rounds 12) s) = C_Returned.
Proof.
  intros Hinv Hpast.
  assert (Hpre : ainv (abs s) && past_main (abs s) = true)
    by (rewrite Hinv, Hpast; reflexivity).
  exact (returned_in _ _
           (implb_elim _ _
              (forall_abs_spec _ turn_rounds_return (abs s)) Hpre)
           (abs_exec (turn_rounds 12) s [abs s] (list_elem_of_here _ _))).
Qed.

Lemma past_main_stop (s : Sys) : cpc s = C_Stop -> past_main (abs s) = true.
Proof. unfold past_main. rewrite abs_cpc. intros ->. reflexivity. Qed.

Lemma exec_app (a1 a2 : list Action) (s : Sys) :
  exec (a1 ++ a2) s = exec a2 (exec a1 s).
Proof.
  revert s. induction a1 as [|a a1 IH]; intros s; simpl; [reflexivity|].
  apply IH.
Qed.

Lemma exec_cons (a : Action) (acts : list Action) (s : Sys) :
  exec (a :: acts) s = exec acts (step a s).
Proof. reflexivity. Qed.

Lemma run_pipeline_launch (model : option string)
    (f : Buffer -> Size -> Box -> UserResult) (appsink_size : Size)
    (p : Pipeline) (ov : option RsvgOverlay) (os : option GlSvgOverlaySink)
    (l : Launch) :
  run_pipeline model f appsink_size p ov os = Some l ->
  launch_self l
  = init_self f (if (detectCoralDevBoard model).1
                 then (1920, 1080)%Z else (640, 480)%Z) p ov os.
Proof.
  unfold run_pipeline. destruct (detectCoralDevBoard model).1.
  - intros [= <-]. reflexivity.
  - destruct (scaled_size appsink_size) as [sc|]; [|discriminate].
    intros [= <-]. reflexivity.
Qed.

(** C5, amended. The process ends with exit status 0 whatever ends the
    main loop: an explicit quit, end-of-stream, or a fatal ERROR message.
    In every execution of the object [run_pipeline] has built, when one of
    the three arrives in the main loop, the main loop ends, and once every
    thread is given its turn [run] returns within twelve rounds, so the
    call of [run_pipeline] returns and the status is 0. The ERROR handler
    differs from the end-of-stream handler only by the line it writes to
    stderr; both call [Gtk.main_quit], a WARNING only writes its line, and
    all three ways of quitting leave the object in the same state for the
    same teardown. *)
Theorem run_returns_with_status_zero :
  (forall model f appsink_size p ov os l acts quit,
     run_pipeline model f appsink_size p ov os = Some l ->
     cpc (exec acts (init_sys (launch_self l))) = C_Main ->
     (quit = ActQuit
      \/ exists m, quit = ActBus m
                   /\ (msg_type m = EOS \/ msg_type m = ERROR)) ->
     cpc (step quit (exec acts (init_sys (launch_self l)))) = C_Stop
     /\ exit_status <$>
          process_outcome (run_pipeline model f appsink_size p ov os)
                          (acts ++ quit :: turn_rounds 12)
        = Some 0%Z)
  /\ (forall m,
        match msg_type m with
        | EOS => on_bus_message m = [EvMainQuit]
        | ERROR => exists line, on_bus_message m = [EvStderr line; EvMainQuit]
        | WARNING => exists line, on_bus_message m = [EvStderr line]
        | OTHER => on_bus_message m = []
        end)
  /\ (forall m s,
        cpc s = C_Main ->
        (msg_type m = EOS \/ msg_type m = ERROR) ->
        cpc (step (ActBus m) s) = C_Stop
        /\ cpc (step ActQuit s) = C_Stop
        /\ self (step (ActBus m) s) = self (step ActQuit s)).
Proof.
  split; [|split].
  - intros model f appsink_size p ov os l acts quit Hl Hc Hq.
    assert (Hstop : cpc (step quit (exec acts (init_sys (launch_self l))))
                    = C_Stop).
    { destruct Hq as [->|(m & -> & Hm)]; simpl.
      - rewrite Hc. reflexivity.
      - apply on_bus_message_quits in Hm. unfold step_bus.
        rewrite Hc, Hm. reflexivity. }
    split; [exact Hstop|].
    rewrite Hl. unfold process_outcome. rewrite exec_app, exec_cons.
    apply returned_exit_status, turn_rounds_from_inv.
    + apply ainv_step, ainv_exec.
      rewrite (run_pipeline_launch _ _ _ _ _ _ _ Hl). apply ainv_init.
    + apply past_main_stop, Hstop.
  - intros m. unfold on_bus_message. destruct (msg_type m); eauto.
  - intros m s Hc Hm. apply on_bus_message_quits in Hm.
    simpl. unfold step_bus. rewrite Hc, Hm. simpl. auto.
Qed.

Lemma run_returns_with_status_zero_example :
  let acts := [ActControl; ActControl; ActControl; ActWorker;
               ActSample frameA; ActProducer] in
  let launch := run_pipeline None ex_callback (300, 300)%Z
                  (pipeline ex_desktop) (overlay ex_desktop)
                  (overlaysink ex_desktop) in
  cpc (step (ActBus ex_error) (exec acts (init_sys ex_desktop))) = C_Stop
  /\ exit_status <$>
       process_outcome launch (acts ++ ActBus ex_error :: turn_rounds 12)
     = Some 0%Z.
Proof.
  exact (proj1 run_returns_with_status_zero None ex_callback (300, 300)%Z
           (pipeline ex_desktop) (overlay ex_desktop)
           (overlaysink ex_desktop)
           (mkLaunch (Some (300, 225)%Z) ex_desktop)
           [ActControl; ActControl; ActControl; ActWorker;
            ActSample frameA; ActProducer]
           (ActBus ex_error) eq_refl eq_refl
           (or_intror (ex_intro _ ex_error
                         (conj eq_refl (or_intror eq_refl))))).
Defined.

(** *** The order of the control thread's actions *)

Lemma control_events_app (t1 t2 : list Event) :
  control_events (t1 ++ t2) = control_events t1 ++ control_events t2.
Proof. apply List.filter_app. Qed.

Lemma control_events_set_property (out : list Event) :
  Forall is_set_property out -> control_events out = [].
Proof.
  induction 1 as [|e out He _ IH]; [reflexivity|].
  destruct e; try contradiction. simpl. exact IH.
Qed.

Lemma control_events_on_bus_message (m : Message) :
  control_events (on_bus_message m) = [].
Proof. unfold on_bus_message. destruct (msg_type m); reflexivity. Qed.

(** The control thread's events so far are the first [progress] events of
    [run_sequence]. *)
Lemma control_order_step (a : Action) (s : Sys) :
  control_events (trace s) = take (progress (cpc s)) run_sequence ->
  control_events (trace (step a s))
  = take (progress (cpc (step a s))) run_sequence.
Proof.
  intros H. destruct s as [sf lk c w p tr]; simpl in H. destruct a; simpl.
  - unfold step_control; simpl.
    destruct c; simpl; try destruct lk; try destruct (finished w); simpl;
      rewrite ?control_events_app, ?H; reflexivity.
  - unfold step_worker; simpl.
    destruct w as [| | | | |b| |e]; simpl;
      [|destruct lk| | |destruct lk| | |]; simpl;
      rewrite ?control_events_app, ?H, ?app_nil_r; try reflexivity; try exact H.
    + destruct (take_or_wait sf) as [[| |b] sf']; simpl;
        rewrite control_events_app, H, app_nil_r; reflexivity.
    + pose proof (control_events_set_property _ (process_frame_out b sf))
        as Hq.
      unfold out_of in Hq.
      destruct (process_frame b sf) as [[[u|e] sf'] out]; simpl in *;
        rewrite ?control_events_app, Hq, H; simpl; rewrite ?app_nil_r;
        reflexivity.
  - unfold step_producer; simpl.
    destruct p; simpl; try destruct lk; simpl;
      rewrite ?control_events_app, ?H, ?app_nil_r; try reflexivity; exact H.
  - destruct p; simpl; exact H.
  - unfold step_bus; simpl.
    destruct c; simpl; try exact H.
    + rewrite control_events_app, control_events_on_bus_message, app_nil_r, H.
      destruct (calls_main_quit (on_bus_message m)); reflexivity.
    + rewrite control_events_app, control_events_on_bus_message, app_nil_r.
      exact H.
  - destruct c; simpl; rewrite ?control_events_app, ?H, ?app_nil_r;
      try reflexivity; exact H.
  - destruct c; simpl; exact H.
  - exact H.
Qed.

Lemma control_order_exec (acts : list Action) (s : Sys) :
  control_events (trace s) = take (progress (cpc s)) run_sequence ->
  control_events (trace (exec acts s))
  = take (progress (cpc (exec acts s))) run_sequence.
Proof.
  revert s. induction acts as [|a acts IH]; intros s H; simpl; [exact H|].
  apply IH, control_order_step, H.
Qed.

(** X2. In every execution the control thread's own actions come in the
    order of [run]: [running] is set before the worker is started, the
    pipeline is set to PLAYING and later to NULL, and only then is the lock
    taken, [running] cleared, the condition notified, the lock released and
    the worker joined. What has happened so far is always a prefix of that
    one sequence, so no action happens twice: [running] is never set again
    once cleared and the pipeline is never restarted. *)
Theorem run_actions_in_program_order (s0 : Self) (acts : list Action) :
  control_events (trace (exec acts (init_sys s0)))
  = take (progress (cpc (exec acts (init_sys s0)))) run_sequence
  /\ control_events (trace (exec acts (init_sys s0))) `prefix_of` run_sequence.
Proof.
  assert (H : control_events (trace (exec acts (init_sys s0)))
              = take (progress (cpc (exec acts (init_sys s0)))) run_sequence)
    by (apply control_order_exec; reflexivity).
  split; [exact H|]. rewrite H. apply prefix_take.
Qed.

(** *** The protocol of the lock *)

Lemma lock_protocol_app (t1 t2 : list Event) (o : option Tid) :
  lock_protocol (t1 ++ t2) o
  = match lock_protocol t1 o with
    | Some o' => lock_protocol t2 o'
    | None => None
    end.
Proof.
  revert o. induction t1 as [|e t1 IH]; intros o; simpl; [reflexivity|].
  destruct e; try apply IH;
    repeat match goal with
           | |- context [decide ?P] => destruct (decide P)
           | |- context [match ?x with _ => _ end] =>
               is_var x; destruct x
           end; try reflexivity; apply IH.
Qed.

Lemma lock_protocol_set_property (out : list Event) (o : option Tid) :
  Forall is_set_property out -> lock_protocol out o = Some o.
Proof.
  induction 1 as [|e out He _ IH]; [reflexivity|].
  destruct e; try contradiction. simpl. exact IH.
Qed.

Lemma lock_protocol_on_bus_message (m : Message) (o : option Tid) :
  lock_protocol (on_bus_message m) o = Some o.
Proof. unfold on_bus_message. destruct (msg_type m); reflexivity. Qed.

(** Who owns the lock is where the threads say, in every state that
    satisfies [ainv]. *)
Lemma ainv_owner (s : Sys) :
  ainv (abs s) = true ->
  (cpc s ∈ [C_Clear; C_Notify; C_Release] -> lock s = Some Control)
  /\ (wpc s = W_Locked -> lock s = Some Worker)
  /\ (prd_locked (ppc s) = true -> lock s = Some Producer).
Proof.
  unfold ainv. intros H.
  repeat (apply andb_prop in H as [H ?]).
  repeat match goal with
         | Hb : bool_decide _ = true |- _ => apply bool_decide_eq_true in Hb
         end.
  destruct s as [sf lk c w p tr]; simpl in *. repeat split.
  - intros Hc. tauto.
  - intros ->. simpl in *. tauto.
  - intros Hp.
    assert (prd_shape p ∈ [PS_Locked; PS_Notify; PS_Release])
      by (destruct p; try discriminate; simpl;
          repeat first [apply list_elem_of_here|apply list_elem_of_further]).
    tauto.
Qed.

Lemma lock_protocol_step (a : Action) (s : Sys) :
  ainv (abs s) = true ->
  lock_protocol (trace s) None = Some (lock s) ->
  lock_protocol (trace (step a s)) None = Some (lock (step a s)).
Proof.
  intros Hinv H.
  destruct (ainv_owner s Hinv) as (Hc & Hw & Hp).
  destruct s as [sf lk c w p tr]; simpl in *. destruct a; simpl.
  - unfold step_control; simpl.
    destruct c; simpl; try destruct lk; try destruct (finished w); simpl;
      rewrite ?lock_protocol_app, ?H; try reflexivity; try exact H;
      try (rewrite Hc by (repeat first [apply list_elem_of_here
                                        |apply list_elem_of_further]);
           reflexivity);
      try (assert (Hx : @None Tid = Some Control)
             by (apply Hc; repeat first [apply list_elem_of_here
                                        |apply list_elem_of_further]);
           discriminate Hx).
  - unfold step_worker; simpl.
    destruct w as [| | | | |b| |e]; simpl; try exact H.
    + destruct lk; simpl; rewrite ?lock_protocol_app, ?H; try reflexivity;
        exact H.
    + rewrite (Hw eq_refl) in H.
      destruct (take_or_wait sf) as [[| |b] sf']; simpl;
        rewrite lock_protocol_app, H; reflexivity.
    + destruct lk; simpl; rewrite ?lock_protocol_app, ?H; try reflexivity;
        exact H.
    + pose proof (process_frame_out b sf) as Hq. unfold out_of in Hq.
      destruct (process_frame b sf) as [[[u|e] sf'] out]; simpl in *;
        rewrite lock_protocol_app, H;
        rewrite ?lock_protocol_app, (lock_protocol_set_property _ _ Hq);
        reflexivity.
  - unfold step_producer; simpl.
    destruct p; simpl; try exact H.
    + destruct lk; simpl; rewrite ?lock_protocol_app, ?H; try reflexivity;
        exact H.
    + rewrite (Hp eq_refl) in *. rewrite lock_protocol_app, H. reflexivity.
    + rewrite (Hp eq_refl) in *. rewrite lock_protocol_app, H. reflexivity.
    + rewrite (Hp eq_refl) in *. rewrite lock_protocol_app, H. reflexivity.
  - destruct p; simpl; exact H.
  - unfold step_bus; simpl.
    destruct c; simpl; try exact H;
      rewrite lock_protocol_app, H; apply lock_protocol_on_bus_message.
  - destruct c; simpl; try exact H. rewrite lock_protocol_app, H. reflexivity.
  - destruct c; simpl; exact H.
  - exact H.
Qed.

Lemma lock_protocol_exec (acts : list Action) (s : Sys) :
  ainv (abs s) = true ->
  lock_protocol (trace s) None = Some (lock s) ->
  lock_protocol (trace (exec acts s)) None = Some (lock (exec acts s)).
Proof.
  revert s. induction acts as [|a acts IH]; intros s Hinv H; simpl;
    [exact H|].
  apply IH; [apply ainv_step, Hinv|apply lock_protocol_step; assumption].
Qed.

(** X3. In every execution the threads keep the protocol of
    [self.condition]: a thread enters a [with] block only when no other
    thread is inside one; the producer writes the slot, the worker reads it
    and waits, either calls [notify_all], and the control thread clears
    [running], only while it holds the lock; and the lock is released only
    by the thread that holds it. The owner the log gives is the owner in
    the state. *)
Theorem lock_protocol_respected
    (f : Buffer -> Size -> Box -> UserResult) (src : Size) (p : Pipeline)
    (ov : option RsvgOverlay) (os : option GlSvgOverlaySink)
    (acts : list Action) :
  lock_protocol (trace (exec acts (init_sys (init_self f src p ov os)))) None
  = Some (lock (exec acts (init_sys (init_self f src p ov os)))).
Proof. apply lock_protocol_exec; [apply ainv_init|reflexivity]. Qed.

(** *** Wakeups and progress *)

(** A property of views that every outcome of every step keeps holds along
    every execution. *)
Lemma abs_invariant_step (I : Abs -> bool) :
  forall_abs (fun x =>
    implb (I x) (forallb (fun a => forallb I (astep a x)) all_actions)) = true ->
  forall a s, I (abs s) = true -> I (abs (step a s)) = true.
Proof.
  intros Hind a s Hinv.
  pose proof (implb_elim _ _ (forall_abs_spec _ Hind (abs s)) Hinv) as H.
  apply (forallb_at _ _ (abs_action a)) in H; [|destruct a; simpl; auto 10].
  apply (forallb_at _ _ (abs (step a s))) in H; [exact H|].
  apply list_elem_of_In, abs_step.
Qed.

Lemma abs_invariant_exec (I : Abs -> bool) :
  forall_abs (fun x =>
    implb (I x) (forallb (fun a => forallb I (astep a x)) all_actions)) = true ->
  forall acts s, I (abs s) = true -> I (abs (exec acts s)) = true.
Proof.
  intros Hind acts. induction acts as [|a acts IH]; intros s H; simpl;
    [exact H|].
  apply IH, (abs_invariant_step I Hind), H.
Qed.

Lemma winv_inductive :
  forall_abs (fun x =>
    implb (winv x)
          (forallb (fun a => forallb winv (astep a x)) all_actions)) = true.
Proof. vm_compute. reflexivity. Qed.

Lemma winv_init f src p ov os :
  winv (abs (init_sys (init_self f src p ov os))) = true.
Proof. vm_compute. reflexivity. Qed.

Lemma winv_reachable f src p ov os (acts : list Action) :
  winv (abs (exec acts (init_sys (init_self f src p ov os)))) = true.
Proof. apply (abs_invariant_exec winv winv_inductive), winv_init. Qed.

Lemma waiting_check :
  forall_abs (fun x =>
    implb (winv x)
          (implb (bool_decide (a_wrk x = WS_Wait /\ a_lock x = None))
                 (negb (a_full x) && a_running x))) = true.
Proof. vm_compute. reflexivity. Qed.

Lemma waiting_sees_nothing (s : Sys) :
  winv (abs s) = true -> wpc s = W_Wait -> lock s = None ->
  gstbuffer (self s) = None /\ running (self s) = true.
Proof.
  intros Hinv Hw Hl.
  pose proof (implb_elim _ _ (forall_abs_spec _ waiting_check (abs s)) Hinv)
    as H.
  destruct s as [sf lk c w p tr]; simpl in *. subst w lk. simpl in H.
  apply andb_prop in H as [Hf Hr].
  split; [|exact Hr]. destruct (gstbuffer sf); [discriminate|reflexivity].
Qed.

(** X4. No wakeup is missed: in every execution, whenever the worker is
    blocked in [self.condition.wait()] and nobody holds the lock, the slot
    is empty and [running] is on; a frame deposited or a shutdown begun
    while the worker waits has always been followed by [notify_all] before
    the lock was released. *)
Theorem no_missed_wakeup
    (f : Buffer -> Size -> Box -> UserResult) (src : Size) (p : Pipeline)
    (ov : option RsvgOverlay) (os : option GlSvgOverlaySink)
    (acts : list Action) :
  wpc (exec acts (init_sys (init_self f src p ov os))) = W_Wait ->
  lock (exec acts (init_sys (init_self f src p ov os))) = None ->
  gstbuffer (self (exec acts (init_sys (init_self f src p ov os)))) = None
  /\ running (self (exec acts (init_sys (init_self f src p ov os)))) = true.
Proof. apply waiting_sees_nothing, winv_reachable. Qed.

Lemma no_missed_wakeup_example :
  gstbuffer
    (self (exec [ActControl; ActControl; ActControl; ActWorker; ActWorker;
                 ActSample frameA]
                (init_sys ex_desktop))) = None
  /\ running
       (self (exec [ActControl; ActControl; ActControl; ActWorker; ActWorker;
                    ActSample frameA]
                   (init_sys ex_desktop))) = true.
Proof.
  apply (no_missed_wakeup ex_callback (640, 480)%Z
           (mkPipeline None (Some (mkVideoBox 0 (-40) 0 (-40))) NULL)
           (Some (mkRsvgOverlay None)) None
           [ActControl; ActControl; ActControl; ActWorker; ActWorker;
            ActSample frameA]); reflexivity.
Defined.

Lemma views_all (P : Abs -> bool) (views : list Abs) (s : Sys) :
  forallb P views = true -> abs s ∈ views -> P (abs s) = true.
Proof. intros H Hin. apply list_elem_of_In in Hin. exact (forallb_at _ _ _ H Hin). Qed.

Lemma busy_check :
  forall_abs (fun x =>
    implb (winv x && bool_decide (a_wrk x = WS_Have))
          (forallb (fun y =>
                      bool_decide (a_prd y = PS_Idle)
                      && implb (negb (bool_decide (a_prd x = PS_Idle)))
                               (a_full y))
                   (aexec (abs_action <$> busy_rounds 7) [x]))) = true.
Proof. vm_compute. reflexivity. Qed.

Lemma busy_step_keeps_worker (a : Action) (s : Sys) (b : Buffer) :
  a = ActControl \/ a = ActProducer ->
  wpc s = W_Have b -> wpc (step a s) = W_Have b.
Proof.
  destruct s as [sf lk c w p tr]; simpl. intros [-> | ->] ->; simpl.
  - unfold step_control; simpl.
    destruct c; simpl; try destruct lk; simpl; reflexivity.
  - unfold step_producer; simpl.
    destruct p; simpl; try destruct lk; simpl; reflexivity.
Qed.

Lemma busy_exec_keeps_worker (acts : list Action) (s : Sys) (b : Buffer) :
  Forall (fun a => a = ActControl \/ a = ActProducer) acts ->
  wpc s = W_Have b -> wpc (exec acts s) = W_Have b.
Proof.
  intros Hall. revert s. induction Hall as [|a acts Ha _ IH]; intros s Hw;
    simpl; [exact Hw|].
  apply IH, busy_step_keeps_worker; assumption.
Qed.

Lemma busy_producer_finishes (s : Sys) (b : Buffer) :
  winv (abs s) = true -> wpc s = W_Have b ->
  ppc (exec (busy_rounds 7) s) = P_Idle
  /\ (ppc s <> P_Idle -> gstbuffer (self (exec (busy_rounds 7) s)) <> None).
Proof.
  intros Hinv Hw.
  assert (Hpre : winv (abs s) && bool_decide (a_wrk (abs s) = WS_Have) = true).
  { rewrite Hinv. destruct s as [sf lk c w p tr]; simpl in *. subst w.
    reflexivity. }
  pose proof (views_all _ _ _
                (implb_elim _ _ (forall_abs_spec _ busy_check (abs s)) Hpre)
                (abs_exec (busy_rounds 7) s [abs s] (list_elem_of_here _ _)))
    as H.
  revert H. generalize (exec (busy_rounds 7) s) as s'. intros s' H.
  cbv beta in H. apply andb_prop in H as [Hp Hf].
  apply bool_decide_eq_true in Hp.
  destruct s as [sf lk c w p tr], s' as [sf' lk' c' w' p' tr']; simpl in *.
  split.
  - destruct p'; try discriminate. reflexivity.
  - intros Hne. destruct p; try (destruct (Hne eq_refl)); simpl in Hf;
      destruct (gstbuffer sf'); discriminate.
Qed.

Lemma own_frame_step (a : Action) (s : Sys) :
  ainv (abs s) = true -> own_frame_inv s -> own_frame_inv (step a s).
Proof.
  intros Hinv H. destruct (ainv_owner s Hinv) as (_ & Hw & Hp).
  destruct s as [sf lk c w p tr]. unfold own_frame_inv in *. simpl in *.
  destruct a; simpl.
  - unfold step_control; simpl.
    destruct c; simpl; try destruct lk; simpl;
      try destruct (finished w); simpl; exact H.
  - unfold step_worker; simpl.
    destruct w; simpl; try destruct lk; simpl; try exact H.
    + destruct (take_or_wait sf) as [[| |b] sf']; simpl;
        destruct p; simpl in *; try exact I;
        pose proof (Hw eq_refl); pose proof (Hp eq_refl); congruence.
    + destruct (take_or_wait sf) as [[| |b] sf']; simpl;
        destruct p; simpl in *; try exact I;
        pose proof (Hw eq_refl); pose proof (Hp eq_refl); congruence.
    + pose proof (process_frame_frame b sf) as (_ & Hg & _).
      destruct (process_frame b sf) as [[[u|e] s'] out];
        unfold state_of in Hg; simpl in *; rewrite Hg; exact H.
    + pose proof (process_frame_frame b sf) as (_ & Hg & _).
      destruct (process_frame b sf) as [[[u|e] s'] out];
        unfold state_of in Hg; simpl in *; rewrite Hg; exact H.
  - unfold step_producer; simpl.
    destruct p; simpl; try destruct lk; simpl;
      first [exact H|exact I|reflexivity].
  - destruct p; simpl; first [exact I|exact H].
  - unfold step_bus; simpl. destruct c; simpl; exact H.
  - destruct c; simpl; exact H.
  - destruct c; simpl; exact H.
  - exact H.
Qed.

Lemma own_frame_exec (acts : list Action) (s : Sys) :
  ainv (abs s) = true -> own_frame_inv s -> own_frame_inv (exec acts s).
Proof.
  revert s. induction acts as [|a acts IH]; intros s Hinv H; simpl;
    [exact H|].
  apply IH; [apply ainv_step, Hinv|apply own_frame_step; assumption].
Qed.

Lemma producing_step (sample : Sample) (a : Action) (s : Sys) :
  a = ActControl \/ a = ActProducer ->
  producing sample s -> producing sample (step a s).
Proof.
  destruct s as [sf lk c w p tr]. unfold producing. simpl.
  intros [-> | ->] H; simpl.
  - unfold step_control; simpl.
    destruct c; simpl; try destruct lk; simpl;
      try destruct (finished w); simpl; exact H.
  - unfold step_producer; simpl.
    destruct p; simpl; try destruct lk; simpl;
      first [exact H|exact (proj2 H)|subst; split; reflexivity].
Qed.

Lemma producing_exec (sample : Sample) (acts : list Action) (s : Sys) :
  Forall (fun a => a = ActControl \/ a = ActProducer) acts ->
  producing sample s -> producing sample (exec acts s).
Proof.
  intros Hall. revert s. induction Hall as [|a acts Ha _ IH]; intros s H;
    simpl; [exact H|].
  apply IH, producing_step; assumption.
Qed.

Lemma busy_rounds_turns :
  Forall (fun a => a = ActControl \/ a = ActProducer) (busy_rounds 7).
Proof.
  unfold busy_rounds, busy_round. simpl.
  repeat (constructor; [first [left; reflexivity|right; reflexivity]|]).
  constructor.
Qed.

Lemma producing_idle (sample : Sample) (s : Sys) :
  producing sample s -> ppc s = P_Idle ->
  gstbuffer (self s) = Some (get_buffer sample).
Proof. unfold producing. intros H Hp. rewrite Hp in H. exact H. Qed.

Lemma pending_producing (sample : Sample) (s : Sys) :
  own_frame_inv s -> pending_sample (ppc s) = Some sample ->
  producing sample s.
Proof.
  unfold own_frame_inv, producing.
  destruct (ppc s); simpl; intros H Hs; try discriminate;
    injection Hs as ->; try reflexivity; exact (conj eq_refl H).
Qed.

(** X10. A slow callback never holds up the producer: in every execution,
    while the worker is inside the user function (and so is not scheduled),
    seven turns of the control thread and the producer are enough for
    [on_new_sample] to return, with the frame of the sample it was called
    for stored in the slot; the worker still has the frame it was
    processing. The callback runs outside the lock. *)
Theorem slow_callback_never_blocks_producer
    (f : Buffer -> Size -> Box -> UserResult) (src : Size) (p : Pipeline)
    (ov : option RsvgOverlay) (os : option GlSvgOverlaySink)
    (acts : list Action) (b : Buffer) :
  wpc (exec acts (init_sys (init_self f src p ov os))) = W_Have b ->
  ppc (exec (busy_rounds 7)
            (exec acts (init_sys (init_self f src p ov os)))) = P_Idle
  /\ wpc (exec (busy_rounds 7)
               (exec acts (init_sys (init_self f src p ov os)))) = W_Have b
  /\ (forall sample,
        pending_sample (ppc (exec acts (init_sys (init_self f src p ov os))))
        = Some sample ->
        gstbuffer (self (exec (busy_rounds 7)
                              (exec acts
                                    (init_sys (init_self f src p ov os)))))
        = Some (get_buffer sample)).
Proof.
  intros Hw.
  destruct (busy_producer_finishes _ b (winv_reachable f src p ov os acts) Hw)
    as [Hp _].
  split; [exact Hp|]. split.
  - apply busy_exec_keeps_worker; [apply busy_rounds_turns|exact Hw].
  - intros sample Hs.
    apply producing_idle; [|exact Hp].
    apply producing_exec; [apply busy_rounds_turns|].
    apply pending_producing; [|exact Hs].
    apply own_frame_exec; [apply ainv_init|exact I].
Qed.

Lemma slow_callback_never_blocks_producer_example :
  let acts := [ActControl; ActControl; ActControl;
               ActSample frameA;
               ActProducer; ActProducer; ActProducer; ActProducer;
               ActWorker; ActWorker;
               ActSample frameB] in
  ppc (exec (busy_rounds 7) (exec acts (init_sys ex_desktop))) = P_Idle
  /\ wpc (exec (busy_rounds 7) (exec acts (init_sys ex_desktop))) = W_Have 1
  /\ gstbuffer (self (exec (busy_rounds 7) (exec acts (init_sys ex_desktop))))
     = Some 2.
Proof.
  destruct (slow_callback_never_blocks_producer ex_callback (640, 480)%Z
              (mkPipeline None (Some (mkVideoBox 0 (-40) 0 (-40))) NULL)
              (Some (mkRsvgOverlay None)) None
              [ActControl; ActControl; ActControl;
               ActSample frameA;
               ActProducer; ActProducer; ActProducer; ActProducer;
               ActWorker; ActWorker;
               ActSample frameB] 1 eq_refl) as (H1 & H2 & H3).
  exact (conj H1 (conj H2 (H3 frameB eq_refl))).
Defined.

Lemma ready_check :
  forall_abs (fun x =>
    implb (winv x && bool_decide (a_cpc x = C_Main)
           && bool_decide (a_prd x = PS_Idle) && a_full x)
          (frame_ready x)) = true.
Proof. vm_compute. reflexivity. Qed.

Lemma deliveries_out (b : Buffer) (sf : Self) :
  deliveries (process_frame b sf).2 = [].
Proof. apply (set_property_no_frames _ (process_frame_out b sf)). Qed.

Lemma pending_frame_taken (s : Sys) (b : Buffer) :
  winv (abs s) = true -> cpc s = C_Main -> ppc s = P_Idle ->
  gstbuffer (self s) = Some b ->
  deliveries (trace (exec [ActWorker; ActWorker; ActWorker] s))
  = deliveries (trace s) ++ [b]
  \/ exists e, wpc (exec [ActWorker; ActWorker; ActWorker] s) = W_Crashed e.
Proof.
  intros Hinv Hc Hp Hg.
  assert (Hpre : winv (abs s) && bool_decide (a_cpc (abs s) = C_Main)
                 && bool_decide (a_prd (abs s) = PS_Idle) && a_full (abs s)
                 = true).
  { rewrite Hinv. destruct s as [sf lk c w p tr]; simpl in *.
    subst c p. rewrite Hg. reflexivity. }
  pose proof (implb_elim _ _ (forall_abs_spec _ ready_check (abs s)) Hpre)
    as Hready.
  destruct s as [sf lk c w p tr]; simpl in Hc, Hp, Hg. subst c p.
  unfold frame_ready in Hready. simpl in Hready.
  apply andb_prop in Hready as [Hr Hshape].
  assert (Htake : take_or_wait sf = (Frame b, set_gstbuffer None sf))
    by (unfold take_or_wait; rewrite Hg, Hr; reflexivity).
  destruct lk as [[| |]|], w as [| | | | |b0| |e0]; try discriminate Hshape;
    simpl; unfold step_worker; simpl.
  - (* the worker holds the lock *)
    rewrite Htake. simpl. left.
    pose proof (deliveries_out b (set_gstbuffer None sf)) as Hd.
    destruct (process_frame b (set_gstbuffer None sf)) as [[[u|e] sf'] out];
      simpl in *; rewrite !deliveries_app, ?Hd; simpl;
      rewrite ?app_nil_r; reflexivity.
  - (* at the top of the loop *)
    rewrite Htake. simpl. left.
    pose proof (deliveries_out b (set_gstbuffer None sf)) as Hd.
    destruct (process_frame b (set_gstbuffer None sf)) as [[[u|e] sf'] out];
      simpl in *; rewrite !deliveries_app, ?Hd; simpl;
      rewrite ?app_nil_r; reflexivity.
  - (* woken *)
    rewrite Htake. simpl. left.
    pose proof (deliveries_out b (set_gstbuffer None sf)) as Hd.
    destruct (process_frame b (set_gstbuffer None sf)) as [[[u|e] sf'] out];
      simpl in *; rewrite !deliveries_app, ?Hd; simpl;
      rewrite ?app_nil_r; reflexivity.
  - (* still processing an earlier frame *)
    pose proof (process_frame_frame b0 sf) as (Hr' & Hg' & _).
    pose proof (deliveries_out b0 sf) as Hd.
    unfold state_of in *.
    destruct (process_frame b0 sf) as [[[u|e] sf'] out]; simpl in *.
    + left. unfold take_or_wait. rewrite Hg', Hg, Hr', Hr. simpl.
      rewrite !deliveries_app, Hd. simpl. rewrite !app_nil_r. reflexivity.
    + right. exists e. reflexivity.
  - right. exists e0. reflexivity.
Qed.

(** X11. A frame in the slot reaches the worker: in every execution, while
    the control thread is in the main loop and the producer is idle, three
    steps of the worker are enough for the frame in the slot to be taken,
    unless the worker thread has died of an exception. *)
Theorem pending_frame_is_delivered
    (f : Buffer -> Size -> Box -> UserResult) (src : Size) (p : Pipeline)
    (ov : option RsvgOverlay) (os : option GlSvgOverlaySink)
    (acts : list Action) (b : Buffer) :
  cpc (exec acts (init_sys (init_self f src p ov os))) = C_Main ->
  ppc (exec acts (init_sys (init_self f src p ov os))) = P_Idle ->
  gstbuffer (self (exec acts (init_sys (init_self f src p ov os)))) = Some b ->
  deliveries (trace (exec [ActWorker; ActWorker; ActWorker]
                          (exec acts (init_sys (init_self f src p ov os)))))
  = deliveries (trace (exec acts (init_sys (init_self f src p ov os)))) ++ [b]
  \/ exists e,
       wpc (exec [ActWorker; ActWorker; ActWorker]
                 (exec acts (init_sys (init_self f src p ov os))))
       = W_Crashed e.
Proof. apply pending_frame_taken, winv_reachable. Qed.

Lemma pending_frame_is_delivered_example :
  let acts := [ActControl; ActControl; ActControl;
               ActWorker; ActWorker;
               ActSample frameA;
               ActProducer; ActProducer; ActProducer; ActProducer] in
  deliveries (trace (exec [ActWorker; ActWorker; ActWorker]
                          (exec acts (init_sys ex_desktop))))
  = deliveries (trace (exec acts (init_sys ex_desktop))) ++ [1]
  \/ exists e,
       wpc (exec [ActWorker; ActWorker; ActWorker]
                 (exec acts (init_sys ex_desktop))) = W_Crashed e.
Proof.
  apply (pending_frame_is_delivered ex_callback (640, 480)%Z
           (mkPipeline None (Some (mkVideoBox 0 (-40) 0 (-40))) NULL)
           (Some (mkRsvgOverlay None)) None);
    reflexivity.
Defined.

(** *** What can end the worker *)

Lemma process_frame_raises (b : Buffer) (sf : Self) (e : Exn) :
  res_of (process_frame b sf) = Raise e ->
  sink_size sf <> None ->
  e = AssertionError glbox_or_box \/ e = CallbackError.
Proof.
  rewrite process_frame_cases, get_box_cases. intros H Hs.
  destruct (box sf) as [r0|];
    [|destruct (lookup_glbox (pipeline sf)) as [g|],
        (el_box (pipeline sf)) as [vb|], (sink_size sf) as [sz|]];
    try (destruct (Hs eq_refl)); unfold res_of in H; simpl in H;
    try (injection H as <-; auto; fail);
    match type of H with
    | context [user_function ?f ?b ?sz ?r] =>
        destruct (user_function f b sz r) as [svg|]; simpl in H;
        [|injection H as <-; auto]
    end;
    match type of H with
    | context [publish ?v ?s1] =>
        pose proof (publish_frame v s1) as (Hp & _); unfold res_of in Hp;
        destruct (publish v s1) as [[res s2] out2]; simpl in *;
        congruence
    end.
Qed.

Lemma sink_inv_step (a : Action) (s : Sys) :
  sink_inv s -> sink_inv (step a s).
Proof.
  intros (Hp & Hg & Hw & Hc). unfold sink_inv.
  destruct s as [sf lk c w p tr]; simpl in *. destruct a; simpl.
  - unfold step_control; simpl.
    destruct c; simpl; try destruct lk; try destruct (finished w); simpl;
      repeat split; auto; try (destruct w; simpl; auto; fail);
      try (intros b; destruct w; simpl; try discriminate; auto; fail);
      try (intros e; destruct w; simpl; try discriminate; auto; fail).
  - unfold step_worker; simpl.
    destruct w as [| | | | |b| |e]; simpl;
      [|destruct lk| | |destruct lk| | |]; simpl;
      try (repeat split; auto; try discriminate; fail).
    + unfold take_or_wait.
      destruct (gstbuffer sf) as [b0|] eqn:Hgb, (running sf); simpl;
        repeat split; auto; try discriminate; try (rewrite Hgb; auto; fail).
    + pose proof (process_frame_frame b sf) as (_ & Hgb & Hsz & _).
      pose proof (process_frame_raises b sf) as Hr.
      unfold state_of, res_of in *.
      destruct (process_frame b sf) as [[[u|e] sf'] out]; simpl in *;
        rewrite Hgb, Hsz; repeat split; auto; try discriminate.
      intros e' [= <-]. apply Hr; [reflexivity|]. eapply Hw. reflexivity.
  - unfold step_producer; simpl.
    destruct p; simpl; try destruct lk; simpl;
      repeat split; auto; try discriminate;
      try (intros _; apply Hp; discriminate);
      try (intros b; destruct w; simpl; try discriminate; eauto; fail);
      try (intros e; destruct w; simpl; try discriminate; auto; fail).
  - destruct p; simpl; try (repeat split; auto; fail).
    unfold observe_caps.
    destruct (sink_size sf) eqn:Hs; simpl; rewrite ?Hs;
      repeat split; auto; try discriminate;
      try (intros; apply Hw with b; assumption).
  - unfold step_bus; simpl. destruct c; simpl; repeat split; auto.
  - destruct c; simpl; repeat split; auto.
  - destruct c; simpl; repeat split; auto.
  - repeat split; auto.
Qed.

Lemma sink_inv_exec (acts : list Action) (s : Sys) :
  sink_inv s -> sink_inv (exec acts s).
Proof.
  revert s. induction acts as [|a acts IH]; intros s H; simpl; [exact H|].
  apply IH, sink_inv_step, H.
Qed.

Lemma sink_inv_init f src p ov os :
  sink_inv (init_sys (init_self f src p ov os)).
Proof.
  unfold sink_inv; simpl. repeat split; try discriminate; intros H;
    destruct (H eq_refl).
Qed.

(** X5. In every execution the worker thread can die of two things only:
    the assertion of line 103 ([get_box] finds neither a [glbox] filter nor
    a [box] element) or an exception of the user function. The assertion
    on [sink_size] (line 104) never fails in the running program, and
    [get_box] never dereferences [None]: the worker has a frame in hand
    only after [on_new_sample] has recorded the sink size. *)
Theorem worker_dies_only_of_line_103_or_callback
    (f : Buffer -> Size -> Box -> UserResult) (src : Size) (p : Pipeline)
    (ov : option RsvgOverlay) (os : option GlSvgOverlaySink)
    (acts : list Action) (e : Exn) :
  wpc (exec acts (init_sys (init_self f src p ov os))) = W_Crashed e ->
  e = AssertionError glbox_or_box \/ e = CallbackError.
Proof.
  intros H.
  destruct (sink_inv_exec acts _ (sink_inv_init f src p ov os))
    as (_ & _ & _ & Hc).
  exact (Hc e H).
Qed.

Lemma worker_dies_only_of_line_103_or_callback_example :
  CallbackError = AssertionError glbox_or_box \/ CallbackError = CallbackError.
Proof.
  apply (worker_dies_only_of_line_103_or_callback ex_raising (640, 480)%Z
           (mkPipeline None (Some (mkVideoBox 0 (-40) 0 (-40))) NULL)
           (Some (mkRsvgOverlay None)) None
           [ActControl; ActControl; ActControl; ActSample frameA;
            ActProducer; ActProducer; ActProducer; ActProducer;
            ActWorker; ActWorker; ActWorker]).
  reflexivity.
Defined.

(** *** The sink size *)

Lemma sink_size_stable_exec (acts : list Action) (s : Sys) (sz : Size) :
  sink_size (self s) = Some sz -> sink_size (self (exec acts s)) = Some sz.
Proof.
  revert s. induction acts as [|a acts IH]; intros s H; simpl; [exact H|].
  apply IH. destruct (step_region a s) as [_ [Hs|[Hs _]]]; congruence.
Qed.

(** Before the first sample nothing records a sink size and the producer
    stays idle. *)
Lemma no_sample_step (a : Action) (s : Sys) :
  is_sample a = false ->
  sink_size (self s) = None /\ ppc s = P_Idle ->
  sink_size (self (step a s)) = None /\ ppc (step a s) = P_Idle.
Proof.
  intros Ha [Hs Hp]. destruct s as [sf lk c w p tr]; simpl in *. subst p.
  destruct a; try discriminate Ha; simpl.
  - unfold step_control; simpl.
    destruct c; simpl; try destruct lk; try destruct (finished w); simpl;
      auto.
  - unfold step_worker; simpl.
    destruct w as [| | | | |b| |e]; simpl;
      [|destruct lk| | |destruct lk| | |]; simpl; auto.
    + pose proof (take_or_wait_region sf) as [_ Hz].
      destruct (take_or_wait sf) as [[| |b] sf']; simpl in *;
        rewrite Hz; auto.
    + pose proof (process_frame_frame b sf) as (_ & _ & Hz & _).
      unfold state_of in *.
      destruct (process_frame b sf) as [[[u|e] sf'] out]; simpl in *;
        rewrite Hz; auto.
  - auto.
  - unfold step_bus; simpl. destruct c; simpl; auto.
  - destruct c; simpl; auto.
  - destruct c; simpl; auto.
  - auto.
Qed.

Lemma no_sample_exec (acts : list Action) (s : Sys) :
  Forall (fun a => is_sample a = false) acts ->
  sink_size (self s) = None /\ ppc s = P_Idle ->
  sink_size (self (exec acts s)) = None /\ ppc (exec acts s) = P_Idle.
Proof.
  intros Hall. revert s. induction Hall as [|a acts Ha _ IH]; intros s H;
    simpl; [exact H|].
  apply IH, no_sample_step; assumption.
Qed.

(** X6. The sink size is the resolution of the first sample and never
    changes: in every execution from a fresh object, whatever happens
    before the first [new-sample] signal and after it (later samples with
    other caps included), [sink_size] is the width and height of the caps
    of that first sample. *)
Theorem sink_size_is_first_sample
    (f : Buffer -> Size -> Box -> UserResult) (src : Size) (p : Pipeline)
    (ov : option RsvgOverlay) (os : option GlSvgOverlaySink)
    (before after : list Action) (first : Sample) :
  Forall (fun a => is_sample a = false) before ->
  sink_size
    (self (exec (before ++ ActSample first :: after)
                (init_sys (init_self f src p ov os))))
  = Some (caps_width first, caps_height first).
Proof.
  intros Hall. rewrite exec_app. simpl.
  apply sink_size_stable_exec.
  destruct (no_sample_exec before (init_sys (init_self f src p ov os)) Hall)
    as [Hs Hp]; [split; reflexivity|].
  destruct (exec before (init_sys (init_self f src p ov os)))
    as [sf lk c w pp tr]; simpl in *. subst pp. simpl.
  unfold observe_caps. rewrite Hs. reflexivity.
Qed.

Lemma sink_size_is_first_sample_example :
  sink_size
    (self (exec ([ActControl; ActControl; ActControl; ActWorker]
                 ++ ActSample frameA
                 :: [ActProducer; ActSample (mkSample 1 1 9); ActProducer;
                     ActProducer; ActProducer; ActProducer;
                     ActSample (mkSample 2 2 8)])
                (init_sys ex_desktop)))
  = Some (320, 240)%Z.
Proof.
  apply (sink_size_is_first_sample ex_callback (640, 480)%Z
           (mkPipeline None (Some (mkVideoBox 0 (-40) 0 (-40))) NULL)
           (Some (mkRsvgOverlay None)) None
           [ActControl; ActControl; ActControl; ActWorker]
           [ActProducer; ActSample (mkSample 1 1 9); ActProducer;
            ActProducer; ActProducer; ActProducer;
            ActSample (mkSample 2 2 8)] frameA).
  repeat constructor.
Defined.

(** *** After the worker has ended *)

Lemma sent_app (elem : string) (t1 t2 : list Event) :
  sent elem (t1 ++ t2) = sent elem t1 ++ sent elem t2.
Proof. apply omap_app. Qed.

Lemma sent_on_bus_message (elem : string) (m : Message) :
  sent elem (on_bus_message m) = [].
Proof. unfold on_bus_message. destruct (msg_type m); reflexivity. Qed.

Lemma ended_step (a : Action) (s : Sys) :
  finished (wpc s) = true ->
  wpc (step a s) = wpc s
  /\ deliveries (trace (step a s)) = deliveries (trace s)
  /\ (forall elem, sent elem (trace (step a s)) = sent elem (trace s))
  /\ overlay (self (step a s)) = overlay (self s)
  /\ overlaysink (self (step a s)) = overlaysink (self s).
Proof.
  intros Hf. destruct s as [sf lk c w p tr]; simpl in *.
  destruct w as [| | | | |b| |e]; try discriminate Hf;
    destruct a; simpl;
    unfold step_control, step_producer, step_bus; simpl;
    try (destruct c; simpl; try destruct lk; simpl);
    try (destruct p; simpl; try destruct lk; simpl);
    try (destruct (sink_size sf) eqn:Hs;
         unfold observe_caps; rewrite Hs; simpl);
    repeat split; try reflexivity; intros;
    rewrite ?deliveries_app, ?sent_app, ?sent_on_bus_message,
      ?(proj2 (on_bus_message_no_frames _)); simpl;
    rewrite ?app_nil_r; try reflexivity;
    try (destruct (calls_main_quit (on_bus_message m)); reflexivity).
Qed.

(** X7. Once the worker thread has ended, by its [break] or by an
    exception, it stays ended: in whatever follows no frame is taken from
    the slot, nothing is sent to either overlay sink and their properties
    keep their values, although samples may still arrive and be
    deposited. *)
Theorem nothing_delivered_after_worker_ended (s : Sys)
    (acts : list Action) :
  finished (wpc s) = true ->
  wpc (exec acts s) = wpc s
  /\ deliveries (trace (exec acts s)) = deliveries (trace s)
  /\ (forall elem, sent elem (trace (exec acts s)) = sent elem (trace s))
  /\ overlay (self (exec acts s)) = overlay (self s)
  /\ overlaysink (self (exec acts s)) = overlaysink (self s).
Proof.
  revert s. induction acts as [|a acts IH]; intros s Hf; simpl.
  - repeat split; reflexivity.
  - destruct (ended_step a s Hf) as (Hw & Hd & Hs & Ho & Hk).
    destruct (IH (step a s)) as (Hw' & Hd' & Hs' & Ho' & Hk');
      [rewrite Hw; exact Hf|].
    split; [congruence|]. split; [congruence|].
    split; [intros elem; rewrite Hs', Hs; reflexivity|].
    split; congruence.
Qed.

Lemma nothing_delivered_after_worker_ended_example :
  let s := exec [ActControl; ActControl; ActControl; ActSample frameA;
                 ActProducer; ActProducer; ActProducer; ActProducer;
                 ActWorker; ActWorker; ActWorker] (init_sys ex_faulty) in
  let more := [ActSample frameB; ActProducer; ActProducer; ActProducer;
               ActProducer; ActWorker; ActWorker; ActWorker] in
  wpc (exec more s) = wpc s
  /\ deliveries (trace (exec more s)) = deliveries (trace s)
  /\ (forall elem, sent elem (trace (exec more s)) = sent elem (trace s))
  /\ overlay (self (exec more s)) = overlay (self s)
  /\ overlaysink (self (exec more s)) = overlaysink (self s).
Proof.
  apply (nothing_delivered_after_worker_ended
           (exec [ActControl; ActControl; ActControl; ActSample frameA;
                  ActProducer; ActProducer; ActProducer; ActProducer;
                  ActWorker; ActWorker; ActWorker] (init_sys ex_faulty))).
  reflexivity.
Defined.

(** *** The status dispatcher *)

(** X8. Of all bus messages only end-of-stream and ERROR, and only while
    the control thread is inside [Gtk.main()], move the control thread (to
    the teardown); a WARNING only writes its line to stderr; and no bus
    message touches the object, the lock, the worker or the producer. *)
Theorem only_eos_and_error_end_the_main_loop (m : Message) (s : Sys) :
  self (step (ActBus m) s) = self s
  /\ lock (step (ActBus m) s) = lock s
  /\ wpc (step (ActBus m) s) = wpc s
  /\ ppc (step (ActBus m) s) = ppc s
  /\ (cpc (step (ActBus m) s) <> cpc s
      <-> cpc s = C_Main /\ (msg_type m = EOS \/ msg_type m = ERROR))
  /\ (cpc (step (ActBus m) s) <> cpc s -> cpc (step (ActBus m) s) = C_Stop)
  /\ (msg_type m = WARNING ->
      on_bus_message m
      = [EvStderr ("Warning: " +:+ msg_err m +:+ ": " +:+ msg_debug m
                   +:+ newline)]).
Proof.
  destruct s as [sf lk c w p tr]; simpl. unfold step_bus; simpl.
  pose proof (on_bus_message_quits m) as Hq.
  destruct c; simpl;
    (split; [reflexivity|]); (split; [reflexivity|]);
    (split; [reflexivity|]); (split; [reflexivity|]);
    (split; [|split]);
    try (split; [intros H; destruct (H eq_refl)|intros [H _]; discriminate H]);
    try (intros H; destruct (H eq_refl));
    try (intros Hm; unfold on_bus_message; rewrite Hm; reflexivity).
  - destruct (calls_main_quit (on_bus_message m)) eqn:Hcall; split.
    + intros _. split; [reflexivity|]. apply Hq. reflexivity.
    + intros _. discriminate.
    + intros H. destruct (H eq_refl).
    + intros [_ Hm]. apply Hq in Hm. discriminate Hm.
  - destruct (calls_main_quit (on_bus_message m)); intros H;
      [reflexivity|destruct (H eq_refl)].
Qed.

(** *** The overlay sinks against the log *)

Lemma get_box_out (s : Self) : out_of (get_box s) = [].
Proof.
  rewrite get_box_cases.
  destruct (box s), (lookup_glbox (pipeline s)), (el_box (pipeline s)),
    (sink_size s); reflexivity.
Qed.

(** What one processed frame sends and leaves: nothing, or one non-empty
    text to every sink there is. *)
Lemma process_frame_sent (b : Buffer) (sf : Self) :
  exists vals,
    (vals = [] \/ exists c t, vals = [String c t])
    /\ sent "overlay" (out_of (process_frame b sf))
       = (if truthy (overlay sf) then vals else [])
    /\ sent "overlaysink" (out_of (process_frame b sf))
       = (if truthy (overlaysink sf) then vals else [])
    /\ overlay (state_of (process_frame b sf))
       = (fun o => mkRsvgOverlay (current (ov_data o) vals)) <$> overlay sf
    /\ overlaysink (state_of (process_frame b sf))
       = (fun o => mkGlSvgOverlaySink (current (os_svg o) vals))
           <$> overlaysink sf.
Proof.
  assert (Hnone : forall s1 : Self,
    overlay s1 = (fun o => mkRsvgOverlay (current (ov_data o) []))
                   <$> overlay s1
    /\ overlaysink s1 = (fun o => mkGlSvgOverlaySink (current (os_svg o) []))
                          <$> overlaysink s1).
  { intros s1. destruct (overlay s1) as [[d]|], (overlaysink s1) as [[d']|];
      split; reflexivity. }
  rewrite process_frame_cases.
  pose proof (get_box_frame sf) as (_ & _ & _ & _ & _ & _ & Hov & Hos & _).
  pose proof (get_box_out sf) as Hout.
  unfold state_of, out_of in *.
  destruct (get_box sf) as [[[r|e] s1] out1]; simpl in *; subst out1.
  - destruct (user_function s1 b (src_size s1) r) as [svg|]; simpl.
    + rewrite publish_cases.
      destruct svg as [[|c t]|]; simpl.
      * exists []. rewrite <- Hov, <- Hos.
        destruct (truthy (overlay s1)), (truthy (overlaysink s1));
          repeat split; auto; apply Hnone.
      * exists [String c t]. rewrite <- Hov, <- Hos.
        split; [right; eauto|].
        destruct (overlay s1) as [[d]|], (overlaysink s1) as [[d']|];
          repeat split; reflexivity.
      * exists []. rewrite <- Hov, <- Hos.
        destruct (truthy (overlay s1)), (truthy (overlaysink s1));
          repeat split; auto; apply Hnone.
    + exists []. rewrite <- Hov, <- Hos.
      destruct (truthy (overlay s1)), (truthy (overlaysink s1));
        repeat split; auto; apply Hnone.
  - exists []. rewrite <- Hov, <- Hos.
    destruct (truthy (overlay s1)), (truthy (overlaysink s1));
      repeat split; auto; apply Hnone.
Qed.

Lemma current_app (d : option string) (l1 l2 : list string) :
  current (current d l1) l2 = current d (l1 ++ l2).
Proof.
  unfold current. rewrite last_app.
  destruct (last l2); [reflexivity|]. destruct (last l1); reflexivity.
Qed.

Lemma take_or_wait_overlay (sf : Self) :
  overlay (take_or_wait sf).2 = overlay sf
  /\ overlaysink (take_or_wait sf).2 = overlaysink sf.
Proof.
  unfold take_or_wait. destruct (gstbuffer sf), (running sf); simpl; auto.
Qed.

(** Only the worker's processing of a frame touches the sinks. *)
Lemma step_overlay_shape (a : Action) (s : Sys) :
  (overlay (self (step a s)) = overlay (self s)
   /\ overlaysink (self (step a s)) = overlaysink (self s)
   /\ forall elem, sent elem (trace (step a s)) = sent elem (trace s))
  \/ exists b,
       self (step a s) = state_of (process_frame b (self s))
       /\ forall elem,
            sent elem (trace (step a s))
            = sent elem (trace s)
              ++ sent elem (out_of (process_frame b (self s))).
Proof.
  destruct s as [sf lk c w p tr]; destruct a; simpl.
  - left. unfold step_control; simpl.
    destruct c; simpl; try destruct lk; try destruct (finished w); simpl;
      repeat split; try reflexivity; intros elem;
      rewrite ?sent_app; simpl; rewrite ?app_nil_r; reflexivity.
  - unfold step_worker; simpl.
    destruct w as [| | | | |b| |e]; simpl;
      [|destruct lk| | |destruct lk| | |]; simpl;
      try (left; repeat split; try reflexivity; intros elem;
           rewrite ?sent_app; simpl; rewrite ?app_nil_r; reflexivity).
    + left. pose proof (take_or_wait_overlay sf) as [Ho Hk].
      destruct (take_or_wait sf) as [[| |b] sf']; simpl in *;
        repeat split; auto; intros elem; rewrite sent_app; simpl;
        rewrite app_nil_r; reflexivity.
    + right. exists b. unfold state_of, out_of.
      destruct (process_frame b sf) as [[[u|e] sf'] out]; simpl;
        split; try reflexivity; intros elem; rewrite ?sent_app; simpl;
        rewrite ?app_nil_r; reflexivity.
  - left. unfold step_producer; simpl.
    destruct p; simpl; try destruct lk; simpl;
      repeat split; try reflexivity; intros elem;
      rewrite ?sent_app; simpl; rewrite ?app_nil_r; reflexivity.
  - left. destruct p; simpl; repeat split; try reflexivity.
    + unfold observe_caps. destruct (sink_size sf); reflexivity.
    + unfold observe_caps. destruct (sink_size sf); reflexivity.
  - left. unfold step_bus; simpl.
    destruct c; simpl; repeat split; try reflexivity; intros elem;
      rewrite sent_app, sent_on_bus_message, app_nil_r; reflexivity.
  - left. destruct c; simpl; repeat split; try reflexivity; intros elem;
      rewrite sent_app; simpl; rewrite app_nil_r; reflexivity.
  - left. destruct c; simpl; repeat split; reflexivity.
  - left. repeat split; reflexivity.
Qed.

Lemma overlay_inv_step (ov0 : option RsvgOverlay)
    (os0 : option GlSvgOverlaySink) (a : Action) (s : Sys) :
  overlay_inv ov0 os0 s -> overlay_inv ov0 os0 (step a s).
Proof.
  intros (Hn1 & Hn2 & Ho & Hk & He1 & He2 & Hsync). unfold overlay_inv.
  destruct (step_overlay_shape a s) as [(Ho' & Hk' & Hs)|(b & Hself & Hs)].
  - rewrite !Hs, Ho', Hk'. repeat split; assumption.
  - destruct (process_frame_sent b (self s))
      as (vals & Hvals & Hs1 & Hs2 & Ho' & Hk').
    rewrite !Hs, Hself, Hs1, Hs2, Ho', Hk', Ho, Hk.
    assert (Hne : Forall (fun v : string => v <> EmptyString) vals).
    { destruct Hvals as [->|(c & t & ->)]; repeat constructor.
      discriminate. }
    destruct ov0 as [o0|], os0 as [k0|]; simpl;
      rewrite ?current_app, ?app_nil_r;
      repeat split; auto; try discriminate;
      try (apply Forall_app; split; assumption);
      try (intros; rewrite Hsync by discriminate; reflexivity);
      intros H1 H2; first [destruct (H1 eq_refl)|destruct (H2 eq_refl)].
Qed.

Lemma overlay_inv_exec (ov0 : option RsvgOverlay)
    (os0 : option GlSvgOverlaySink) (acts : list Action) (s : Sys) :
  overlay_inv ov0 os0 s -> overlay_inv ov0 os0 (exec acts s).
Proof.
  revert s. induction acts as [|a acts IH]; intros s H; simpl; [exact H|].
  apply IH, overlay_inv_step, H.
Qed.

(** X9. The overlay sinks follow the callback: in every execution only
    non-empty descriptions are sent to a sink; a sink the pipeline has
    holds the last description sent to it (or what it held at the start
    when none was sent); a sink the pipeline lacks is sent nothing; and
    when the pipeline has both, [overlay] and [overlaysink] are sent the
    same descriptions in the same order. *)
Theorem overlay_sinks_follow_the_callback
    (f : Buffer -> Size -> Box -> UserResult) (src : Size) (p : Pipeline)
    (ov : option RsvgOverlay) (os : option GlSvgOverlaySink)
    (acts : list Action) :
  overlay_inv ov os (exec acts (init_sys (init_self f src p ov os))).
Proof.
  apply overlay_inv_exec. unfold overlay_inv; simpl.
  repeat split; try constructor; try reflexivity.
  - destruct ov as [[d]|]; reflexivity.
  - destruct os as [[d]|]; reflexivity.
Qed.

(** *** Start-up *)

Lemma prefix_spec (n h : string) :
  String.prefix n h = true <-> exists post, h = n +:+ post.
Proof.
  revert h. induction n as [|c n IH]; intros h.
  - split; [intros _; exists h; reflexivity|].
    intros _. destruct h; reflexivity.
  - destruct h as [|d h]; simpl.
    + split; [discriminate|intros (post & H); discriminate].
    + destruct (Ascii.ascii_dec c d) as [->|Hne].
      * split.
        -- intros H. apply IH in H as (post & ->). exists post. reflexivity.
        -- intros (post & H). apply IH. exists post.
           injection H as ->. reflexivity.
      * split; [discriminate|]. intros (post & H).
        injection H as -> _. destruct (Hne eq_refl).
Qed.

Lemma contains_eq (n h : string) :
  contains n h
  = String.prefix n h
    || match h with
       | EmptyString => false
       | String _ rest => contains n rest
       end.
Proof. destruct h; reflexivity. Qed.

Lemma contains_spec (n h : string) :
  contains n h = true <-> exists pre post, h = pre +:+ n +:+ post.
Proof.
  split.
  - induction h as [|d h IH]; rewrite contains_eq; intros H;
      apply orb_true_iff in H as [H|H].
    + apply prefix_spec in H as (post & H). exists EmptyString, post. exact H.
    + discriminate.
    + apply prefix_spec in H as (post & H). exists EmptyString, post. exact H.
    + destruct (IH H) as (pre & post & ->). exists (String d pre), post.
      reflexivity.
  - intros (pre & post & ->). induction pre as [|d pre IH]; rewrite contains_eq.
    + apply orb_true_iff. left. apply prefix_spec. exists post. reflexivity.
    + apply orb_true_iff. right. exact IH.
Qed.

(** X12. [detectCoralDevBoard] returns [True] exactly when the device-tree
    model file could be read and its text has ['MX8MQ'] somewhere in it; it
    prints its one line exactly then, and a failed read gives [False] with
    nothing printed. *)
Theorem detectCoralDevBoard_iff_model_names_the_chip (model : option string) :
  ((detectCoralDevBoard model).1 = true
   <-> exists pre post, model = Some (pre +:+ "MX8MQ" +:+ post))
  /\ (detectCoralDevBoard model).2
     = (if (detectCoralDevBoard model).1
        then ["Detected Edge TPU dev board."] else [])
  /\ detectCoralDevBoard None = (false, []).
Proof.
  split; [|split; [|reflexivity]].
  - destruct model as [text|]; simpl.
    + destruct (contains "MX8MQ" text) eqn:Hc; simpl.
      * apply contains_spec in Hc as (pre & post & ->).
        split; [intros _; exists pre, post; reflexivity|reflexivity].
      * split; [discriminate|]. intros (pre & post & [= ->]).
        assert (contains "MX8MQ" (pre +:+ "MX8MQ" +:+ post) = true)
          by (apply contains_spec; exists pre, post; reflexivity).
        congruence.
    + split; [discriminate|]. intros (pre & post & H). discriminate.
  - destruct model as [text|]; simpl; [|reflexivity].
    destruct (contains "MX8MQ" text); reflexivity.
Qed.

(** *** The scaled size *)

Lemma scaled_size_select (w h : Z) :
  scaled_size (w, h)
  = pick (true_div w 640) (true_div h 480)
         (true_div w 640 ≫= scale_of) (true_div h 480 ≫= scale_of).
Proof.
  unfold scaled_size, pick, py_min; simpl.
  destruct (true_div w 640) as [x|]; simpl; [|reflexivity].
  destruct (true_div h 480) as [y|]; simpl; [|reflexivity].
  destruct (SpecFloat.SFltb y x); reflexivity.
Qed.

Lemma check_tables_sound (ws hs : list Z) :
  check_tables (List.map row_w ws) (List.map row_h hs) = true ->
  forall w h, List.In w ws -> List.In h hs ->
    fits w h (scaled_size (w, h)) = true.
Proof.
  intros H w h Hw Hh. unfold check_tables in H.
  rewrite List.forallb_forall in H.
  specialize (H (row_w w) (List.in_map row_w ws w Hw)).
  unfold row_w in H at 1. cbv zeta beta iota in H.
  rewrite List.forallb_forall in H.
  specialize (H (row_h h) (List.in_map row_h hs h Hh)).
  unfold row_h in H at 1. cbv zeta beta iota in H.
  rewrite scaled_size_select. exact H.
Qed.

Lemma in_upto (n : nat) (z : Z) :
  (0 <= z < Z.of_nat n)%Z -> List.In z (upto n).
Proof.
  intros H. unfold upto. rewrite <- (Z2Nat.id z) by lia.
  apply List.in_map, List.in_seq. lia.
Qed.

Lemma fits_spec (w h : Z) (r : option Size) :
  fits w h r = true ->
  exists a b, r = Some (a, b)
    /\ (a <= w)%Z /\ (b <= h)%Z
    /\ ((exact_fit w h).1 - 1 <= a <= (exact_fit w h).1)%Z
    /\ ((exact_fit w h).2 - 1 <= b <= (exact_fit w h).2)%Z.
Proof.
  destruct r as [[a b]|]; [|discriminate]. unfold fits.
  intros H. repeat (apply andb_true_iff in H as [H ?]).
  exists a, b. rewrite ?Z.leb_le in *. repeat split; assumption.
Qed.

Lemma tables_1024 :
  check_tables (List.map row_w (upto 1025)) (List.map row_h (upto 1025))
  = true.
Proof. vm_compute. reflexivity. Qed.

(** X13. Off the dev board, for every requested size of 0 to 1024 pixels
    a side, line 220 of [run_pipeline] raises nothing, the size it scales
    the 640x480 camera frames to fits inside the requested size, and each
    side is what exact arithmetic gives for the largest 4:3 picture that
    fits, or one pixel less (the doubles of line 219 can round a side just
    below a whole number). *)
Theorem scaled_size_fits_the_requested_size (w h : Z) :
  (0 <= w <= 1024)%Z -> (0 <= h <= 1024)%Z ->
  exists a b, scaled_size (w, h) = Some (a, b)
    /\ (a <= w)%Z /\ (b <= h)%Z
    /\ ((exact_fit w h).1 - 1 <= a <= (exact_fit w h).1)%Z
    /\ ((exact_fit w h).2 - 1 <= b <= (exact_fit w h).2)%Z.
Proof.
  intros Hw Hh. apply fits_spec.
  exact (check_tables_sound _ _ tables_1024 w h
           (in_upto 1025 w ltac:(lia)) (in_upto 1025 h ltac:(lia))).
Qed.

Lemma scaled_size_fits_the_requested_size_example :
  exists a b, scaled_size (300, 300)%Z = Some (a, b)
    /\ (a <= 300)%Z /\ (b <= 300)%Z
    /\ ((exact_fit 300 300).1 - 1 <= a <= (exact_fit 300 300).1)%Z
    /\ ((exact_fit 300 300).2 - 1 <= b <= (exact_fit 300 300).2)%Z.
Proof. apply scaled_size_fits_the_requested_size; lia. Defined.

(** The pixel is lost for some sizes: 164x123 is exactly 4:3, and the
    frames are scaled to 164x122. *)
Example scaled_size_one_pixel_short :
  scaled_size (164, 123)%Z = Some (164, 122)%Z
  /\ exact_fit 164 123 = (164, 123)%Z.
Proof. split; vm_compute; reflexivity. Qed.

(** Beyond 2^53 the quotients are still rounded once, as Python rounds
    them; a requested size whose quotient or product is beyond the largest
    double makes line 219 or line 220 raise. *)
Example scaled_size_of_large_ints :
  scaled_size (2 ^ 63, 2 ^ 63)%Z
  = Some (9223372036854775808, 6917529027641081856)%Z
  /\ scaled_size (2 ^ 1100, 300)%Z = None
  /\ scaled_size (2 ^ 1030, 2 ^ 1030)%Z = None.
Proof. repeat split; vm_compute; reflexivity. Qed.

(** Such an exception leaves [run_pipeline] uncaught off the dev board; on
    the dev board the scale is not computed. *)
Example startup_overflow_is_uncaught :
  exit_status <$>
    process_outcome
      (run_pipeline None ex_callback (2 ^ 1100, 300)%Z (pipeline ex_desktop)
                    (overlay ex_desktop) (overlaysink ex_desktop)) []
  = Some 1%Z
  /\ launch_scale <$>
       run_pipeline (Some "Freescale i.MX8MQ Phanbell") ex_callback
                    (2 ^ 1100, 300)%Z (pipeline ex_coral) (overlay ex_coral)
                    (overlaysink ex_coral)
     = Some None.
Proof. split; vm_compute; reflexivity. Qed.

(** *** The frame size the callback is given *)

Lemma process_frame_src (b : Buffer) (s : Self) :
  src_size (state_of (process_frame b s)) = src_size s
  /\ user_function (state_of (process_frame b s)) = user_function s.
Proof.
  rewrite process_frame_cases, get_box_cases.
  assert (Hp : forall svg s1,
    src_size (state_of (publish svg s1)) = src_size s1
    /\ user_function (state_of (publish svg s1)) = user_function s1).
  { intros svg s1. rewrite publish_cases.
    destruct svg as [[|c t]|]; split; reflexivity. }
  assert (Hu : forall s1 r out1,
    src_size s1 = src_size s -> user_function s1 = user_function s ->
    let x := match user_function s1 b (src_size s1) r with
             | Returns svg =>
                 match publish svg s1 with
                 | (res, s2, out2) => (res, s2, out1 ++ out2)
                 end
             | Raises => (Raise CallbackError, s1, out1 ++ [])
             end in
    src_size (state_of x) = src_size s
    /\ user_function (state_of x) = user_function s).
  { intros s1 r out1 H1 H2.
    destruct (user_function s1 b (src_size s1) r) as [svg|]; simpl.
    - destruct (Hp svg s1) as [H3 H4].
      destruct (publish svg s1) as [[res s2] out2].
      unfold state_of in *; simpl in *. split; congruence.
    - split; assumption. }
  destruct (box s) as [r|].
  - apply Hu; reflexivity.
  - destruct (lookup_glbox (pipeline s)) as [g|],
      (el_box (pipeline s)) as [vb|], (sink_size s) as [sz|];
      try (split; reflexivity); apply Hu; reflexivity.
Qed.

Lemma step_src (a : Action) (s : Sys) :
  src_size (self (step a s)) = src_size (self s)
  /\ user_function (self (step a s)) = user_function (self s).
Proof.
  destruct s as [sf lk c w p tr].
  destruct a; simpl.
  - unfold step_control; simpl. destruct c; simpl; try (split; reflexivity).
    + destruct lk; split; reflexivity.
    + destruct (finished w); split; reflexivity.
  - unfold step_worker; simpl. destruct w; simpl; try (split; reflexivity).
    + destruct lk; split; reflexivity.
    + unfold take_or_wait.
      destruct (gstbuffer sf), (running sf); split; reflexivity.
    + destruct lk; split; reflexivity.
    + pose proof (process_frame_src b sf) as H.
      destruct (process_frame b sf) as [[[u|e] s'] out]; exact H.
  - unfold step_producer; simpl. destruct p; simpl; try (split; reflexivity).
    destruct lk; split; reflexivity.
  - destruct p; simpl; try (split; reflexivity).
    unfold observe_caps. destruct (sink_size sf); split; reflexivity.
  - unfold step_bus; simpl. destruct c; split; reflexivity.
  - destruct c; split; reflexivity.
  - destruct c; split; reflexivity.
  - split; reflexivity.
Qed.

Lemma exec_src (acts : list Action) (s : Sys) :
  src_size (self (exec acts s)) = src_size (self s)
  /\ user_function (self (exec acts s)) = user_function (self s).
Proof.
  revert s. induction acts as [|a acts IH]; intros s; simpl.
  - split; reflexivity.
  - destruct (IH (step a s)) as [H1 H2], (step_src a s) as [H3 H4].
    split; congruence.
Qed.

(** X14. Whatever the three threads do after [run_pipeline] has built the
    object, the callback and [self.src_size] are never replaced: at every
    frame, line 130 calls the function given to [run_pipeline] with the
    camera size chosen at start-up, 1920x1080 when [detectCoralDevBoard]
    found the dev board and 640x480 otherwise, and an exception of the
    callback is what the call raises. *)
Theorem callback_is_given_the_camera_size
    (model : option string) (f : Buffer -> Size -> Box -> UserResult)
    (appsink_size : Size) (p : Pipeline) (ov : option RsvgOverlay)
    (os : option GlSvgOverlaySink) (l : Launch) (acts : list Action)
    (b : Buffer) (region : Box) :
  run_pipeline model f appsink_size p ov os = Some l ->
  let s := self (exec acts (init_sys (launch_self l))) in
  let camera := if (detectCoralDevBoard model).1
                then (1920, 1080)%Z else (640, 480)%Z in
  call_user b region s
  = match f b camera region with
    | Returns svg => (Ok svg, s, [])
    | Raises => (Raise CallbackError, s, [])
    end.
Proof.
  intros Hl s camera.
  assert (Hs : src_size (launch_self l) = camera
               /\ user_function (launch_self l) = f).
  { unfold run_pipeline in Hl. subst camera.
    destruct (detectCoralDevBoard model).1.
    - injection Hl as <-. split; reflexivity.
    - destruct (scaled_size appsink_size) as [sc|]; [|discriminate].
      injection Hl as <-. split; reflexivity. }
  destruct (exec_src acts (init_sys (launch_self l))) as [H1 H2].
  fold s in H1, H2. simpl in H1, H2. destruct Hs as [Hs1 Hs2].
  unfold call_user, mbind, M_bind, get_self; simpl.
  rewrite H1, H2, Hs1, Hs2.
  destruct (f b camera region); reflexivity.
Qed.

Lemma callback_is_given_the_camera_size_example :
  let l := mkLaunch (Some (300, 225)%Z)
             (init_self ex_callback (640, 480)%Z (pipeline ex_desktop)
                        (overlay ex_desktop) (overlaysink ex_desktop)) in
  let s := self (exec (ex_session ActQuit) (init_sys (launch_self l))) in
  call_user 1 (0, 0, 300, 300)%Z s
  = match ex_callback 1 (640, 480)%Z (0, 0, 300, 300)%Z with
    | Returns svg => (Ok svg, s, [])
    | Raises => (Raise CallbackError, s, [])
    end.
Proof.
  exact (callback_is_given_the_camera_size None ex_callback (300, 300)%Z
           (pipeline ex_desktop) (overlay ex_desktop)
           (overlaysink ex_desktop) _ (ex_session ActQuit) 1
           (0, 0, 300, 300)%Z eq_refl).
Defined.
